(** * The AQT device of pennylane-aqt: a shallow embedding of
      [pennylane_aqt/device.py] and the properties of its specification.

    The device translates PennyLane operations into AQT circuit entries,
    submits the serialized circuit to the gateway, polls for the result and
    unpacks the returned samples.  Python values are embedded as [pyval],
    Python floats as IEEE binary64 primitive floats, dictionaries as [gmap],
    and a method of the device as a state transformer that may raise: the
    state reached when an exception is raised is kept, as in Python. *)

From Stdlib Require Import ZArith String Floats.PrimFloat Floats.SpecFloat Floats.FloatOps.
From stdpp Require Import gmap strings list.

Open Scope Z_scope.
Open Scope string_scope.

(** ** Python values *)

#[warnings="-register-all"]
Inductive pyval : Type :=
| VNone
| VInt (z : Z)
| VFloat (f : float)
| VStr (s : string)
| VList (l : list pyval).

(** The exceptions the device can raise or let through. *)
Inductive exn : Type :=
| DeviceError (msg : string)
| ValueError (msg : string)
| TypeError
| KeyError (key : string)
| IndexError
| OverflowError
| JSONDecodeError
| GatewayError (status_code : Z) (text : string).

(** The outcome of a call: a value, an exception, or a poll loop that is
    still running when the fuel given to it runs out. *)
Inductive outcome (A : Type) : Type :=
| Ret (a : A)
| Raise (e : exn)
| Timeout.
Arguments Ret {A} a.
Arguments Raise {A} e.
Arguments Timeout {A}.

(** ** Stateful computations that may raise *)

Definition M (S A : Type) : Type := S -> outcome A * S.

Definition ret {S A} (a : A) : M S A := fun s => (Ret a, s).
Definition raise {S A} (e : exn) : M S A := fun s => (Raise e, s).
Definition bind {S A B} (c : M S A) (k : A -> M S B) : M S B :=
  fun s =>
    match c s with
    | (Ret a, s') => k a s'
    | (Raise e, s') => (Raise e, s')
    | (Timeout, s') => (Timeout, s')
    end.
Definition get {S} : M S S := fun s => (Ret s, s).
Definition modify {S} (f : S -> S) : M S unit := fun s => (Ret tt, f s).
Definition pure_call {S A} (o : outcome A) : M S A := fun s => (o, s).

Notation "x <- c ;; k" := (bind c (fun x => k))
  (at level 100, c at next level, right associativity).
Notation "c ;; k" := (bind c (fun _ => k))
  (at level 100, right associativity).

(** [for x in xs: body(x)] *)
Fixpoint for_each {S A} (xs : list A) (body : A -> M S unit) : M S unit :=
  match xs with
  | [] => ret tt
  | x :: rest => body x ;; for_each rest body
  end.

(** ** Python operators used by the device *)

(** [np.pi], the binary64 number nearest to the real number. *)
Definition np_pi : float := 0x1.921fb54442d18p+1%float.

(** Truth value of a Python object. *)
Definition py_truthy (v : pyval) : bool :=
  match v with
  | VNone => false
  | VInt z => negb (z =? 0)%Z
  | VFloat f => negb (PrimFloat.eqb f 0%float)
  | VStr s => negb (String.eqb s "")
  | VList l => match l with [] => false | _ => true end
  end.

(** [a or b] *)
Definition py_or (a b : pyval) : pyval := if py_truthy a then a else b.

(** Conversion of an [int] to a [float], rounded to nearest even; an [int]
    beyond the binary64 range raises [OverflowError]. *)
Definition float_of_int (z : Z) : outcome float :=
  let f := SF2Prim (binary_normalize prec emax z 0 false) in
  if PrimFloat.is_infinity f then Raise OverflowError else Ret f.

(** The left operand of [/] or [*] against a float. *)
Definition py_number (v : pyval) : outcome float :=
  match v with
  | VFloat f => Ret f
  | VInt z => float_of_int z
  | VNone | VStr _ | VList _ => Raise TypeError
  end.

(** [v / d] for a non-zero float [d]. *)
Definition py_div (v : pyval) (d : float) : outcome pyval :=
  match py_number v with
  | Ret f => Ret (VFloat (f / d)%float)
  | Raise e => Raise e
  | Timeout => Timeout
  end.

(** [v * d] for a float [d]. *)
Definition py_mul (v : pyval) (d : float) : outcome pyval :=
  match py_number v with
  | Ret f => Ret (VFloat (f * d)%float)
  | Raise e => Raise e
  | Timeout => Timeout
  end.

Fixpoint chars (s : string) : list pyval :=
  match s with
  | EmptyString => []
  | String c rest => VStr (String c EmptyString) :: chars rest
  end.

(** [v[i]] for a literal index [i >= 0]. *)
Definition py_getitem (v : pyval) (i : nat) : outcome pyval :=
  match v with
  | VList l => match l !! i with Some x => Ret x | None => Raise IndexError end
  | VStr s => match chars s !! i with Some x => Ret x | None => Raise IndexError end
  | VNone | VInt _ | VFloat _ => Raise TypeError
  end.

(** The elements [iter(v)] yields. *)
Definition py_iter (v : pyval) : outcome (list pyval) :=
  match v with
  | VList l => Ret l
  | VStr s => Ret (chars s)
  | VNone | VInt _ | VFloat _ => Raise TypeError
  end.

(** [v == 1] *)
Definition py_eq_one (v : pyval) : bool :=
  match v with
  | VInt z => (z =? 1)%Z
  | VFloat f => PrimFloat.eqb f 1%float
  | VNone | VStr _ | VList _ => false
  end.

(** [v != s] for a string literal [s]. *)
Definition py_ne_str (v : pyval) (s : string) : bool :=
  match v with
  | VStr t => negb (String.eqb t s)
  | _ => true
  end.

(** [s[-1]] of a non-empty string, as a string. *)
Fixpoint last_char (s : string) : string :=
  match s with
  | EmptyString => EmptyString
  | String c EmptyString => String c EmptyString
  | String _ rest => last_char rest
  end.

(** ** Operations and the device *)

(** A PennyLane operation, as far as the device reads it. *)
Record Operation : Type := {
  name : string;
  parameters : list pyval;
  wires : list Z
}.

Definition py_wires (ws : list Z) : pyval := VList (VInt <$> ws).

Definition BASE_SHOTS : Z := 200.

Record AQTDevice : Type := {
  num_wires : Z;
  shots : Z;
  _initial_shots : Z;
  _api_key : option string;
  circuit : list pyval;
  circuit_json : string;
  samples : pyval;
  header : gmap string string;
  data : gmap string pyval;
  hostname : string
}.

Definition set_shots (v : Z) (d : AQTDevice) : AQTDevice :=
  {| num_wires := num_wires d; shots := v; _initial_shots := _initial_shots d;
     _api_key := _api_key d; circuit := circuit d; circuit_json := circuit_json d;
     samples := samples d; header := header d; data := data d; hostname := hostname d |}.
Definition set_api_key (v : option string) (d : AQTDevice) : AQTDevice :=
  {| num_wires := num_wires d; shots := shots d; _initial_shots := _initial_shots d;
     _api_key := v; circuit := circuit d; circuit_json := circuit_json d;
     samples := samples d; header := header d; data := data d; hostname := hostname d |}.
Definition set_circuit (v : list pyval) (d : AQTDevice) : AQTDevice :=
  {| num_wires := num_wires d; shots := shots d; _initial_shots := _initial_shots d;
     _api_key := _api_key d; circuit := v; circuit_json := circuit_json d;
     samples := samples d; header := header d; data := data d; hostname := hostname d |}.
Definition set_circuit_json (v : string) (d : AQTDevice) : AQTDevice :=
  {| num_wires := num_wires d; shots := shots d; _initial_shots := _initial_shots d;
     _api_key := _api_key d; circuit := circuit d; circuit_json := v;
     samples := samples d; header := header d; data := data d; hostname := hostname d |}.
Definition set_samples (v : pyval) (d : AQTDevice) : AQTDevice :=
  {| num_wires := num_wires d; shots := shots d; _initial_shots := _initial_shots d;
     _api_key := _api_key d; circuit := circuit d; circuit_json := circuit_json d;
     samples := v; header := header d; data := data d; hostname := hostname d |}.
Definition set_header (v : gmap string string) (d : AQTDevice) : AQTDevice :=
  {| num_wires := num_wires d; shots := shots d; _initial_shots := _initial_shots d;
     _api_key := _api_key d; circuit := circuit d; circuit_json := circuit_json d;
     samples := samples d; header := v; data := data d; hostname := hostname d |}.
Definition set_data (v : gmap string pyval) (d : AQTDevice) : AQTDevice :=
  {| num_wires := num_wires d; shots := shots d; _initial_shots := _initial_shots d;
     _api_key := _api_key d; circuit := circuit d; circuit_json := circuit_json d;
     samples := samples d; header := header d; data := v; hostname := hostname d |}.
Definition set_hostname (v : string) (d : AQTDevice) : AQTDevice :=
  {| num_wires := num_wires d; shots := shots d; _initial_shots := _initial_shots d;
     _api_key := _api_key d; circuit := circuit d; circuit_json := circuit_json d;
     samples := samples d; header := header d; data := data d; hostname := v |}.

(** [self.circuit.append(entry)] *)
Definition circuit_append (entry : pyval) : M AQTDevice unit :=
  modify (fun d => set_circuit (circuit d ++ [entry])%list d).

(** The class table from PennyLane operation names to AQT gate names;
    [None] marks an operation that AQT does not implement natively. *)
Definition _operation_map : gmap string (option string) :=
  <["RX" := Some "X"]> (
  <["RY" := Some "Y"]> (
  <["RZ" := Some "Z"]> (
  <["BasisState" := None]> (
  <["PauliX" := None]> (
  <["PauliY" := None]> (
  <["PauliZ" := None]> (
  <["Hadamard" := None]> (
  <["R" := Some "R"]> (
  <["MS" := Some "MS"]> ∅))))))))).

(** The [operations] property: the keys of the table. *)
Definition operations : gset string := dom _operation_map.

Definition observables : gset string :=
  {[ "PauliX"; "PauliY"; "PauliZ"; "Identity"; "Hadamard"; "Hermitian" ]}.

Definition py_opt_str (o : option string) : pyval :=
  match o with Some s => VStr s | None => VNone end.

Definition _append_op_to_queue (op_name : string) (par : pyval) (ws : list Z)
  : M AQTDevice unit :=
  par <- pure_call (py_div par np_pi) ;;
  aqt_op_name <- pure_call (match _operation_map !! op_name with
                            | Some v => Ret v
                            | None => Raise (KeyError op_name)
                            end) ;;
  circuit_append (VList [py_opt_str aqt_op_name; par; py_wires ws]).

Definition _apply_operation (operation : Operation) (par : pyval)
    (ws : option (list Z)) : M AQTDevice unit :=
  let op_name := name operation in
  let par :=
    if (length (parameters operation) =? 1)%nat
    then py_or par (nth 0 (parameters operation) VNone)
    else if (length (parameters operation) =? 2)%nat
    then py_or par (VList (parameters operation))
    else par in
  let ws :=
    match ws with
    | Some (w :: rest) => w :: rest
    | Some [] | None => wires operation
    end in
  if String.eqb op_name "R" then
    p0 <- pure_call (py_getitem par 0) ;;
    p1 <- pure_call (py_getitem par 1) ;;
    circuit_append (VList [VStr op_name; p0; p1; py_wires ws])
  else if String.eqb (name operation) "BasisState" then
    bits <- pure_call (py_iter par) ;;
    for_each (zip bits ws) (fun bw =>
      if py_eq_one bw.1
      then _append_op_to_queue "RX" (VFloat np_pi) [bw.2]
      else ret tt)
  else
    renamed <-
      (if String.eqb op_name "Hadamard" then
         ret ("RY", VFloat (0.5 * np_pi)%float)
       else if String.eqb op_name "PauliX" || String.eqb op_name "PauliY"
               || String.eqb op_name "PauliZ" then
         ret ("R" ++ last_char op_name, VFloat np_pi)
       else if String.eqb op_name "MS" then
         par <- pure_call (py_mul par np_pi) ;;
         ret (op_name, par)
       else ret (op_name, par)) ;;
    _append_op_to_queue renamed.1 renamed.2 ws.

(** [for i, operation in enumerate(operations): ...], the first loop of
    [apply], from index [i] on. *)
Fixpoint apply_loop (i : nat) (ops : list Operation) : M AQTDevice unit :=
  match ops with
  | [] => ret tt
  | operation :: rest =>
      (if (0 <? i)%nat && (String.eqb (name operation) "BasisState"
                           || String.eqb (name operation) "QubitStateVector")
       then raise (DeviceError ("The operation " ++ name operation
                     ++ " is only supported at the beginning of a circuit."))
       else ret tt) ;;
      _apply_operation operation VNone None ;;
      apply_loop (S i) rest
  end.

(** ** Configuration *)

Definition BASE_HOSTNAME : string := "https://gateway.aqt.eu/marmot".
Definition TARGET_PATH : string := "".
Definition HTTP_METHOD : string := "PUT".

(** A response of the gateway: its status code, its body as text, and the
    body decoded as a JSON object when it is one. *)
Record Response : Type := {
  status_code : Z;
  text : string;
  json : option (gmap string pyval)
}.

(** Modelled from the spec: [join_path] and [valid_status_code] of
    [pennylane_aqt/api_client.py], which the device imports; the spec names a
    host joined from base URL and target path and a "non-success" status
    without fixing either, so both are parameters of the development. *)
Class ApiClient : Type := {
  join_path : string -> string -> string;
  valid_status_code : Response -> bool
}.

(** [a or b] on optional strings: [None] and the empty string are false. *)
Definition str_truthy (o : option string) : bool :=
  match o with
  | Some (String _ _) => true
  | Some EmptyString | None => false
  end.
Definition str_or (a b : option string) : option string :=
  if str_truthy a then a else b.

Section Config.
Context `{ApiClient}.

(** [environ] is [os.environ]. *)
Definition set_api_configs (environ : gmap string string) : M AQTDevice unit :=
  d <- get ;;
  modify (set_api_key (str_or (_api_key d) (environ !! "AQT_TOKEN"))) ;;
  d <- get ;;
  match _api_key d with
  | Some (String c k) =>
      let key := String c k in
      modify (set_header {[ "Ocp-Apim-Subscription-Key" := key ]}) ;;
      d <- get ;;
      modify (set_data (<["access_token" := VStr key]>
                        (<["no_qubits" := VInt (num_wires d)]> ∅))) ;;
      modify (set_hostname (join_path BASE_HOSTNAME TARGET_PATH))
  | Some EmptyString | None =>
      raise (ValueError "No valid api key for AQT platform found.")
  end.

(** The constructor, run on a new object.  The base class stores the wire
    and shot counts; [header], [data] and [hostname] do not exist before
    [set_api_configs] assigns them and are empty until then. *)
Definition __init__ (wires : Z) (shots : option Z) (api_key : option string)
    (environ : gmap string string) : outcome unit * AQTDevice :=
  let shots := default BASE_SHOTS shots in
  set_api_configs environ
    {| num_wires := wires; shots := shots; _initial_shots := shots;
       _api_key := api_key; circuit := []; circuit_json := "";
       samples := VNone; header := ∅; data := ∅; hostname := "" |}.

Definition reset (environ : gmap string string) : M AQTDevice unit :=
  d <- get ;;
  modify (set_shots (_initial_shots d)) ;;
  modify (set_circuit []) ;;
  modify (set_circuit_json "") ;;
  modify (set_samples VNone) ;;
  set_api_configs environ.
End Config.

(** ** Submission and polling *)

Record Request : Type := {
  req_method : string;
  req_url : string;
  req_body : gmap string pyval;
  req_header : gmap string string
}.

(** The network as the device sees it: the requests sent so far, and the
    gateway, which answers the latest request of a history. *)
Record World : Type := {
  gateway : list Request -> Response;
  sent : list Request
}.

Definition System : Type := AQTDevice * World.

Definition on_device {A} (c : M AQTDevice A) : M System A :=
  fun s => let (r, d') := c s.1 in (r, (d', s.2)).

(** Modelled from the spec: [submit] of [pennylane_aqt/api_client.py], one
    HTTP call with the given method, host, body and headers, which returns
    the gateway's response. *)
Definition submit (method url : string) (body : gmap string pyval)
    (hdr : gmap string string) : M System Response :=
  fun s =>
    let req := {| req_method := method; req_url := url;
                  req_body := body; req_header := hdr |} in
    let history := (sent s.2 ++ [req])%list in
    (Ret (gateway s.2 history),
     (s.1, {| gateway := gateway s.2; sent := history |})).

(** Modelled from the spec: [raise_invalid_status_exception] of
    [pennylane_aqt/api_client.py], which fails with a gateway error carrying
    the HTTP status and body. *)
Definition raise_invalid_status_exception {A} (response : Response) : M System A :=
  raise (GatewayError (status_code response) (text response)).

(** [response.json()] *)
Definition response_json (response : Response) : M System (gmap string pyval) :=
  match json response with
  | Some job => ret job
  | None => raise JSONDecodeError
  end.

(** [job[key]] *)
Definition job_getitem (job : gmap string pyval) (key : string) : M System pyval :=
  match job !! key with
  | Some v => ret v
  | None => raise (KeyError key)
  end.

(** [json.dumps]: the standard library's serializer, total on [pyval]. *)
Class Json : Type := { json_dumps : pyval -> string }.

Section Apply.
Context `{ApiClient} `{Json}.

Definition serialize (c : list pyval) : string := json_dumps (VList c).

(** [while job["status"] != "finished": job = submit(...).json()], run
    for at most [fuel] requests. *)
Fixpoint poll (fuel : nat) (job job_query_data : gmap string pyval)
  : M System (gmap string pyval) :=
  status <- job_getitem job "status" ;;
  if py_ne_str status "finished" then
    match fuel with
    | O => fun s => (Timeout, s)
    | S fuel' =>
        s <- get ;;
        response <- submit HTTP_METHOD (hostname s.1) job_query_data (header s.1) ;;
        job' <- response_json response ;;
        poll fuel' job' job_query_data
    end
  else ret job.

Definition apply (fuel : nat) (ops rotations : list Operation) : M System unit :=
  on_device (apply_loop 0 ops) ;;
  on_device (for_each rotations (fun operation =>
               _apply_operation operation VNone None)) ;;
  on_device (d <- get ;; modify (set_circuit_json (serialize (circuit d)))) ;;
  on_device (d <- get ;;
             modify (set_data (<["repetitions" := VInt (shots d)]> (data d)))) ;;
  s <- get ;;
  let job_submission := <["data" := VStr (circuit_json s.1)]> (data s.1) in
  response <- submit HTTP_METHOD (hostname s.1) job_submission (header s.1) ;;
  (if negb (valid_status_code response)
   then raise_invalid_status_exception response
   else ret tt) ;;
  job <- response_json response ;;
  id <- job_getitem job "id" ;;
  s <- get ;;
  let job_query_data : gmap string pyval :=
    <["id" := id]> (<["access_token" := py_opt_str (_api_key s.1)]> ∅) in
  job <- poll fuel job job_query_data ;;
  samples <- job_getitem job "samples" ;;
  on_device (modify (set_samples samples)).
End Apply.

(** ** Samples *)

(** The arrays [generate_samples] can return: one row of bits for a scalar
    sample, one row per shot for a list of samples. *)
Inductive ndarray : Type :=
| Array1 (a : list Z)
| Array2 (rows : list (list Z)).

(** The coordinates of the flat index [v] in an array of the given shape, in
    Fortran order: the first coordinate varies fastest. *)
Fixpoint unravel_F (v : Z) (shape : list Z) : list Z :=
  match shape with
  | [] => []
  | dim :: rest => v `mod` dim :: unravel_F (v `div` dim) rest
  end.

Definition in_bounds (v : Z) (shape : list Z) : bool :=
  (0 <=? v)%Z && (v <? foldr Z.mul 1 shape)%Z.

Fixpoint int_list (l : list pyval) : option (list Z) :=
  match l with
  | [] => Some []
  | VInt z :: rest => cons z <$> int_list rest
  | _ :: _ => None
  end.

(** [np.stack(np.unravel_index(indices, shape, order="F")).T] on a scalar or
    a flat list of integers; NumPy rejects an index outside the array, an
    index that is not an integer (an empty list is an array of floats) and an
    empty sequence of arrays to stack.  Nested lists of samples are not
    modelled and are rejected here. *)
Definition stack_unravel_T (indices : pyval) (shape : list Z) : outcome ndarray :=
  match indices with
  | VInt v =>
      if negb (in_bounds v shape) then Raise (ValueError "index is out of bounds")
      else match shape with
           | [] => Raise (ValueError "need at least one array to stack")
           | _ => Ret (Array1 (unravel_F v shape))
           end
  | VList l =>
      match int_list l with
      | None | Some [] => Raise TypeError
      | Some vs =>
          if negb (forallb (fun v => in_bounds v shape) vs)
          then Raise (ValueError "index is out of bounds")
          else match shape with
               | [] => Raise (ValueError "need at least one array to stack")
               | _ =>
                   let stacked :=
                     (fun k => (fun v => nth k (unravel_F v shape) 0) <$> vs)
                       <$> seq 0 (length shape) in
                   Ret (Array2 ((fun j => (fun row => nth j row 0) <$> stacked)
                                  <$> seq 0 (length vs)))
               end
      end
  | VNone | VFloat _ | VStr _ => Raise TypeError
  end.

Definition generate_samples : M AQTDevice ndarray :=
  d <- get ;;
  pure_call (stack_unravel_T (samples d) (replicate (Z.to_nat (num_wires d)) 2)).

(** ** Concrete inputs on which the model is run *)

Definition example_client : ApiClient :=
  {| join_path := fun base path => base ++ path;
     valid_status_code := fun r => (status_code r =? 200)%Z || (status_code r =? 201)%Z |}.

Definition example_json : Json := {| json_dumps := fun _ => "[...]" |}.

Definition example_device : AQTDevice :=
  {| num_wires := 3; shots := 200; _initial_shots := 200; _api_key := Some "secret";
     circuit := []; circuit_json := ""; samples := VNone;
     header := {[ "Ocp-Apim-Subscription-Key" := "secret" ]};
     data := <["access_token" := VStr "secret"]> (<["no_qubits" := VInt 3]> ∅);
     hostname := "https://gateway.aqt.eu/marmot" |}.

Definition op (n : string) (ps : list pyval) (ws : list Z) : Operation :=
  {| name := n; parameters := ps; wires := ws |}.

(** A gateway that refuses every request. *)
Definition refusing_world : World :=
  {| gateway := fun _ => {| status_code := 403; text := "Forbidden"; json := None |};
     sent := [] |}.

(** A rotation followed by a basis-state preparation. *)
Definition rotation_then_basis_state : list Operation :=
  [op "RX" [VFloat 0.5] [0]; op "BasisState" [VList [VInt 1]] [0]].

(** A gateway that accepts the submission, reports the job as running at
    the first poll and as finished, with two samples, from the second on. *)
Definition serving_world : World :=
  {| gateway := fun history =>
       match length history with
       | 1%nat => {| status_code := 201; text := "";
                     json := Some (<["id" := VStr "job-1"]> {[ "status" := VStr "queued" ]}) |}
       | 2%nat => {| status_code := 200; text := "";
                     json := Some (<["id" := VStr "job-1"]> {[ "status" := VStr "running" ]}) |}
       | _ => {| status_code := 200; text := "";
                 json := Some (<["id" := VStr "job-1"]>
                               (<["status" := VStr "finished"]>
                                {[ "samples" := VList [VInt 5; VInt 6] ]})) |}
       end;
     sent := [] |}.

(** ** Vocabulary of the properties *)

(** The device [d] with [entries] appended to its circuit buffer. *)
Definition queued (d : AQTDevice) (entries : list pyval) : AQTDevice :=
  set_circuit (circuit d ++ entries)%list d.

(** A well-formed entry starts with a vendor gate name. *)
Definition named (entry : pyval) : Prop :=
  exists s rest, entry = VList (VStr s :: rest).

(** The errors a translation can raise: none of them is a device error. *)
Definition translation_error (e : exn) : Prop :=
  e = TypeError \/ e = OverflowError \/ e = IndexError \/ exists k, e = KeyError k.

(** The result of a call that only queues entries. *)
Definition appends (r : outcome unit * AQTDevice) (d : AQTDevice) : Prop :=
  exists entries, r.2 = queued d entries /\ Forall named entries
    /\ (r.1 = Ret tt \/ exists e, r.1 = Raise e /\ translation_error e).

(** The parameter [_apply_operation] pulls from an operation when it is
    called without [par]. *)
Definition pulled_par (ps : list pyval) : pyval :=
  match ps with
  | [p] => p
  | [_; _] => VList ps
  | _ => VNone
  end.

(** The entries a basis-state preparation queues: one X rotation by π,
    stored as 1.0, on the wire of every bit equal to 1. *)
Definition bit_flips (bits : list pyval) (ws : list Z) : list pyval :=
  (fun bw => VList [VStr "X"; VFloat 1; py_wires [bw.2]])
    <$> List.filter (fun bw => py_eq_one bw.1) (zip bits ws).

(** The test of the first loop of [apply] and the error it raises. *)
Definition state_prep (operation : Operation) : bool :=
  String.eqb (name operation) "BasisState"
  || String.eqb (name operation) "QubitStateVector".

Definition ordering_error (operation : Operation) : exn :=
  DeviceError ("The operation " ++ name operation
               ++ " is only supported at the beginning of a circuit.").

(** The request [apply] submits from the device state [d]. *)
Definition submission (d : AQTDevice) : Request :=
  {| req_method := HTTP_METHOD; req_url := hostname d;
     req_body := <["data" := VStr (circuit_json d)]> (data d);
     req_header := header d |}.




(** A computation that leaves the observation [f] of the state as it is. *)
Definition preserves {S A X} (f : S -> X) (c : M S A) : Prop :=
  forall s, f (c s).2 = f s.

Section Vocabulary.
Context `{ApiClient} `{Json}.

(** What [apply] does to the device before it submits. *)
Definition queue_and_serialize (ops rotations : list Operation) : M AQTDevice unit :=
  apply_loop 0 ops ;;
  for_each rotations (fun operation => _apply_operation operation VNone None) ;;
  (d <- get ;; modify (set_circuit_json (serialize (circuit d)))) ;;
  (d <- get ;; modify (set_data (<["repetitions" := VInt (shots d)]> (data d)))).

(** The states of a device constructed for [shots0] shots and then used
    through its methods, with its [shots] attribute set at will. *)
Inductive in_use (shots0 : Z) : AQTDevice -> Prop :=
| in_use_init wires shots api_key environ d :
    default BASE_SHOTS shots = shots0 ->
    __init__ wires shots api_key environ = (Ret tt, d) ->
    in_use shots0 d
| in_use_set_shots v d :
    in_use shots0 d -> in_use shots0 (set_shots v d)
| in_use_reset environ d :
    in_use shots0 d -> in_use shots0 (reset environ d).2
| in_use_apply fuel ops rotations d w :
    in_use shots0 d -> in_use shots0 (apply fuel ops rotations (d, w)).2.1
| in_use_apply_operation operation par ws d :
    in_use shots0 d -> in_use shots0 (_apply_operation operation par ws d).2
| in_use_generate_samples d :
    in_use shots0 d -> in_use shots0 (generate_samples d).2.

End Vocabulary.

(** ** Vocabulary for the course of [apply] and for samples *)

(** The world after [req] is sent, and the gateway's answer to it. *)
Definition send (req : Request) (w : World) : World :=
  {| gateway := gateway w; sent := (sent w ++ [req])%list |}.

Definition answer (req : Request) (w : World) : Response :=
  gateway w (sent w ++ [req])%list.

(** The body and the request of a poll for the job [id]. *)
Definition job_query (id : pyval) (d : AQTDevice) : gmap string pyval :=
  <["id" := id]> (<["access_token" := py_opt_str (_api_key d)]> ∅).

Definition poll_request (d : AQTDevice) (job_query_data : gmap string pyval) : Request :=
  {| req_method := HTTP_METHOD; req_url := hostname d;
     req_body := job_query_data; req_header := header d |}.

(** The error of the first loop of [apply] at a misplaced state
    preparation. *)
Definition misplaced (ops : list Operation) (e : exn) : Prop :=
  exists i operation,
    (0 < i)%nat /\ ops !! i = Some operation /\ state_prep operation = true
    /\ e = ordering_error operation.

(** The errors that come from the gateway's answers. *)
Definition gateway_side_error (e : exn) : Prop :=
  (exists code body, e = GatewayError code body) \/ e = JSONDecodeError
  \/ e = KeyError "id" \/ e = KeyError "status" \/ e = KeyError "samples".

Section Serialized.
Context `{Json}.

(** The device after [apply] has queued [es] and serialized the circuit. *)
Definition serialized (d : AQTDevice) (es : list pyval) : AQTDevice :=
  set_data (<["repetitions" := VInt (shots d)]> (data d))
    (set_circuit_json (serialize (circuit d ++ es)%list) (queued d es)).
End Serialized.


(** A gateway that accepts every request and always reports the job as
    failed. *)
Definition stuck_world : World :=
  {| gateway := fun _ =>
       {| status_code := 200; text := "";
          json := Some (<["id" := VStr "job-1"]> {[ "status" := VStr "error" ]}) |};
     sent := [] |}.

(** A gateway whose first answer is the finished job. *)
Definition instant_world : World :=
  {| gateway := fun _ =>
       {| status_code := 200; text := "";
          json := Some (<["id" := VStr "job-1"]>
                        (<["status" := VStr "finished"]>
                         {[ "samples" := VList [VInt 3] ]})) |};
     sent := [] |}.

(** A gateway that accepts every request with a body that is not JSON. *)
Definition garbled_world : World :=
  {| gateway := fun _ => {| status_code := 200; text := "<html>"; json := None |};
     sent := [] |}.

(** The device after one X rotation is queued and serialized. *)
Definition rx_serialized : AQTDevice :=
  (@queue_and_serialize example_json [op "RX" [VFloat 0.5] [0]] [] example_device).2.

(** ** The circuit buffer only grows *)

Lemma queued_nil d : queued d [] = d.
Proof. unfold queued. rewrite app_nil_r. by destruct d. Qed.

Lemma queued_app d e1 e2 : queued (queued d e1) e2 = queued d (e1 ++ e2)%list.
Proof. unfold queued. cbn. by rewrite app_assoc. Qed.

Lemma circuit_queued d es : circuit (queued d es) = (circuit d ++ es)%list.
Proof. reflexivity. Qed.

(** Every name the table maps to the marker is one of the five rewritten
    operations, and every other mapped name is one of the five native ones. *)
Lemma _operation_map_cases n v :
  _operation_map !! n = Some v ->
  (v = None /\ n ∈ ["BasisState"; "PauliX"; "PauliY"; "PauliZ"; "Hadamard"])
  \/ (exists s, v = Some s /\ (n, s) ∈ [("RX", "X"); ("RY", "Y"); ("RZ", "Z");
                                        ("R", "R"); ("MS", "MS")]).
Proof.
  unfold _operation_map. intros Hn.
  repeat (rewrite lookup_insert in Hn; case_decide;
          [ subst n; inversion Hn; subst v;
            first [ left; split; [ reflexivity | repeat constructor ]
                  | right; eexists; split; [ reflexivity | repeat constructor ] ] | ]).
  by rewrite lookup_empty in Hn.
Qed.

(** What one call of [_append_op_to_queue] does, in every case. *)
Lemma _append_op_to_queue_unfold op_name par ws d :
  _append_op_to_queue op_name par ws d =
  match py_div par np_pi with
  | Ret angle =>
      match _operation_map !! op_name with
      | Some v => (Ret tt, queued d [VList [py_opt_str v; angle; py_wires ws]])
      | None => (Raise (KeyError op_name), d)
      end
  | Raise e => (Raise e, d)
  | Timeout => (Timeout, d)
  end.
Proof.
  unfold _append_op_to_queue, bind, pure_call, circuit_append, modify.
  destruct (py_div par np_pi); try reflexivity.
  by destruct (_operation_map !! op_name).
Qed.

Lemma py_number_no_timeout v : py_number v <> Timeout.
Proof.
  destruct v; cbn; try discriminate.
  unfold float_of_int. by destruct (is_infinity _).
Qed.

Lemma py_div_cases v d :
  (exists f, py_number v = Ret f /\ py_div v d = Ret (VFloat (f / d)%float))
  \/ (py_div v d = Raise TypeError) \/ (py_div v d = Raise OverflowError).
Proof.
  unfold py_div. destruct v; cbn; eauto.
  unfold float_of_int. destruct (is_infinity _); eauto.
Qed.

Lemma py_mul_cases v d :
  (exists f, py_number v = Ret f /\ py_mul v d = Ret (VFloat (f * d)%float))
  \/ (py_mul v d = Raise TypeError) \/ (py_mul v d = Raise OverflowError).
Proof.
  unfold py_mul. destruct v; cbn; eauto.
  unfold float_of_int. destruct (is_infinity _); eauto.
Qed.

Lemma appends_bind (c : M AQTDevice unit) (k : M AQTDevice unit) d :
  appends (c d) d ->
  (forall d', appends (k d') d') ->
  appends ((c ;; k) d) d.
Proof.
  intros (es & Hs & Hn & Hr) Hk. unfold bind.
  destruct (c d) as [r d1]. cbn in *. subst d1.
  destruct Hr as [-> | (e & -> & He)].
  - destruct (Hk (queued d es)) as (es' & Hs' & Hn' & Hr').
    exists (es ++ es')%list. rewrite Hs', queued_app.
    split; [done | split; [by apply Forall_app | done]].
  - exists es. cbn. eauto 10.
Qed.

Lemma appends_ret d : appends (Ret tt, d) d.
Proof. exists []. rewrite queued_nil. cbn. eauto. Qed.

Lemma appends_raise e d : translation_error e -> appends (Raise e, d) d.
Proof. intros He. exists []. rewrite queued_nil. cbn. eauto 10. Qed.

Lemma _append_op_to_queue_appends op_name par ws d :
  (forall v, _operation_map !! op_name = Some v -> v <> None) ->
  appends (_append_op_to_queue op_name par ws d) d.
Proof.
  intros Hnative. rewrite _append_op_to_queue_unfold.
  destruct (py_div_cases par np_pi) as [(f & _ & ->) | [-> | ->]].
  - destruct (_operation_map !! op_name) as [v|] eqn:Hv.
    + destruct v as [s|]; [ | by destruct (Hnative None) ].
      exists [VList [VStr s; VFloat (f / np_pi); py_wires ws]].
      repeat split; [ | by left ].
      constructor; [ by eexists _, _ | constructor ].
    + apply appends_raise. unfold translation_error. eauto 10.
  - apply appends_raise. unfold translation_error. eauto.
  - apply appends_raise. unfold translation_error. eauto.
Qed.

Lemma py_getitem_cases v i :
  (exists x, py_getitem v i = Ret x)
  \/ py_getitem v i = Raise TypeError \/ py_getitem v i = Raise IndexError.
Proof.
  destruct v; cbn; eauto.
  - destruct (chars s !! i); eauto.
  - destruct (l !! i); eauto.
Qed.

Lemma for_each_appends {A} (xs : list A) (body : A -> M AQTDevice unit) d :
  (forall x d', appends (body x d') d') ->
  appends (for_each xs body d) d.
Proof.
  intros Hbody. revert d.
  induction xs as [|x xs IH]; intros d; cbn.
  - apply appends_ret.
  - apply appends_bind; [ apply Hbody | apply IH ].
Qed.

Lemma _apply_operation_appends operation par ws d :
  appends (_apply_operation operation par ws d) d.
Proof.
  unfold _apply_operation.
  destruct operation as [n ps wsop]; cbn [name parameters wires].
  set (par' := if (length ps =? 1)%nat then _ else _).
  set (ws' := match ws with Some (w :: rest) => _ | _ => _ end).
  clearbody par' ws'.
  destruct (String.eqb_spec n "R") as [->|HR].
  - unfold bind, pure_call.
    destruct (py_getitem_cases par' 0) as [(p0 & ->) | [-> | ->]];
      [ | apply appends_raise; unfold translation_error; eauto 10 .. ].
    destruct (py_getitem_cases par' 1) as [(p1 & ->) | [-> | ->]];
      [ | apply appends_raise; unfold translation_error; eauto 10 .. ].
    exists [VList [VStr "R"; p0; p1; py_wires ws']]. cbn.
    repeat split; [ | by left ].
    constructor; [ by eexists _, _ | constructor ].
  - destruct (String.eqb_spec n "BasisState") as [->|HB].
    + unfold bind at 1, pure_call.
      destruct par'; cbn [py_iter];
        try (apply appends_raise; unfold translation_error; eauto 10).
      all: apply for_each_appends; intros [b w] d'; cbn [fst snd];
        destruct (py_eq_one b); [ | apply appends_ret ];
        apply _append_op_to_queue_appends; intros v Hv; vm_compute in Hv;
        by inversion Hv.
    + assert (Hnat : forall m, m = "RX" \/ m = "RY" \/ m = "RZ" \/ m = "MS" ->
                forall v, _operation_map !! m = Some v -> v <> None).
      { intros m Hm v Hv.
        destruct Hm as [-> | [-> | [-> | ->]]]; vm_compute in Hv; by inversion Hv. }
      destruct (String.eqb_spec n "Hadamard") as [->|HH].
      { unfold bind, ret. cbn [fst snd]. apply _append_op_to_queue_appends, Hnat. auto. }
      destruct (String.eqb_spec n "PauliX") as [->|HX].
      { unfold bind, ret. cbn [fst snd last_char String.append orb].
        apply _append_op_to_queue_appends, Hnat. auto. }
      destruct (String.eqb_spec n "PauliY") as [->|HY].
      { unfold bind, ret. cbn [fst snd last_char String.append orb].
        apply _append_op_to_queue_appends, Hnat. auto. }
      destruct (String.eqb_spec n "PauliZ") as [->|HZ].
      { unfold bind, ret. cbn [fst snd last_char String.append orb].
        apply _append_op_to_queue_appends, Hnat. auto. }
      cbn [orb].
      destruct (String.eqb_spec n "MS") as [->|HM].
      { unfold bind, ret, pure_call.
        destruct (py_mul_cases par' np_pi) as [(f & _ & ->) | [-> | ->]];
          [ | apply appends_raise; unfold translation_error; eauto 10 .. ].
        cbn [fst snd]. apply _append_op_to_queue_appends, Hnat. auto. }
      unfold bind, ret. cbn [fst snd].
      apply _append_op_to_queue_appends. intros v Hv ->.
      apply _operation_map_cases in Hv as [[_ Hin] | (s & Hs & _)]; [ | done ].
      rewrite !elem_of_cons, elem_of_nil in Hin. intuition congruence.
Qed.

(** ** Translation of single operations *)

Lemma _operation_map_RX : _operation_map !! "RX" = Some (Some "X").
Proof. vm_compute. reflexivity. Qed.

(** Two floats that differ under [PrimFloat.eqb] are different. *)
Lemma float_neq (a b : float) : PrimFloat.eqb a a = true -> PrimFloat.eqb a b = false -> a <> b.
Proof. intros Ha Hab ->. congruence. Qed.

Lemma VFloat_neq (a b : float) :
  PrimFloat.eqb a a = true -> PrimFloat.eqb a b = false ->
  @Ret pyval (VFloat a) <> Ret (VFloat b).
Proof. intros Ha Hab Heq. inversion Heq. by apply (float_neq a b). Qed.

(** C1, amended: every angle that goes through [_append_op_to_queue] is
    stored divided by π, so the entry of a single-angle gate RX, RY or RZ
    holds the framework angle divided by π; the two parameters of the R gate
    are stored as they are, not divided by π, and the angle of the MS gate is
    multiplied by π before the division. *)
Theorem queued_angles_by_gate :
  (forall op_name par ws d d',
      _append_op_to_queue op_name par ws d = (Ret tt, d') ->
      exists aqt_op_name angle,
        py_div par np_pi = Ret angle
        /\ d' = queued d [VList [aqt_op_name; angle; py_wires ws]])
  /\ (forall theta ws d,
        _apply_operation (op "RX" [VFloat theta] ws) VNone None d
        = (Ret tt, queued d [VList [VStr "X"; VFloat (theta / np_pi); py_wires ws]]))
  /\ (forall theta ws d,
        _apply_operation (op "RY" [VFloat theta] ws) VNone None d
        = (Ret tt, queued d [VList [VStr "Y"; VFloat (theta / np_pi); py_wires ws]]))
  /\ (forall theta ws d,
        _apply_operation (op "RZ" [VFloat theta] ws) VNone None d
        = (Ret tt, queued d [VList [VStr "Z"; VFloat (theta / np_pi); py_wires ws]]))
  /\ (forall t p ws d,
        _apply_operation (op "R" [t; p] ws) VNone None d
        = (Ret tt, queued d [VList [VStr "R"; t; p; py_wires ws]]))
  /\ (forall theta ws d,
        _apply_operation (op "MS" [VFloat theta] ws) VNone None d
        = (Ret tt, queued d [VList [VStr "MS"; VFloat (theta * np_pi / np_pi);
                                    py_wires ws]])).
Proof.
  split; [ | repeat split; intros; vm_compute; reflexivity ].
  intros op_name par ws d d'. rewrite _append_op_to_queue_unfold.
  destruct (py_div par np_pi) as [angle| |]; try discriminate.
  destruct (_operation_map !! op_name) as [v|]; try discriminate.
  intros [= <-]. by exists (py_opt_str v), angle.
Qed.

(** C1, as stated, fails: the R gate's angles 0.5 and 0.25 are stored as
    0.5 and 0.25, which are not 0.5/π and 0.25/π, and the MS gate's angle 0.5
    is stored as 0.5. *)
Lemma R_and_MS_angles_not_divided_by_pi :
  _apply_operation (op "R" [VFloat 0.5; VFloat 0.25] [0]) VNone None example_device
  = (Ret tt, queued example_device
               [VList [VStr "R"; VFloat 0.5; VFloat 0.25; VList [VInt 0]]])
  /\ py_div (VFloat 0.5) np_pi <> Ret (VFloat 0.5)
  /\ py_div (VFloat 0.25) np_pi <> Ret (VFloat 0.25)
  /\ _apply_operation (op "MS" [VFloat 0.5] [0; 1]) VNone None example_device
     = (Ret tt, queued example_device
                  [VList [VStr "MS"; VFloat 0.5; VList [VInt 0; VInt 1]]]).
Proof.
  repeat split; try (vm_compute; reflexivity).
  - apply VFloat_neq; vm_compute; reflexivity.
  - apply VFloat_neq; vm_compute; reflexivity.
Qed.

Lemma queued_angles_by_gate_witness :
  exists aqt_op_name angle,
    py_div (VFloat 0.5) np_pi = Ret angle
    /\ queued example_device [VList [VStr "Z"; VFloat (0.5 / np_pi); py_wires [2]]]
       = queued example_device [VList [aqt_op_name; angle; py_wires [2]]].
Proof.
  apply (proj1 queued_angles_by_gate "RZ" (VFloat 0.5) [2] example_device).
  vm_compute. reflexivity.
Defined.

(** C7: for all wires (and whatever parameters the operation carries), a
    Hadamard queues exactly one Y entry with angle 0.5, and PauliX, PauliY
    and PauliZ queue exactly one X, Y and Z entry with angle 1.0. *)
Theorem hadamard_and_pauli_entries :
  forall ps ws d,
    _apply_operation (op "Hadamard" ps ws) VNone None d
    = (Ret tt, queued d [VList [VStr "Y"; VFloat 0.5; py_wires ws]])
    /\ _apply_operation (op "PauliX" ps ws) VNone None d
       = (Ret tt, queued d [VList [VStr "X"; VFloat 1; py_wires ws]])
    /\ _apply_operation (op "PauliY" ps ws) VNone None d
       = (Ret tt, queued d [VList [VStr "Y"; VFloat 1; py_wires ws]])
    /\ _apply_operation (op "PauliZ" ps ws) VNone None d
       = (Ret tt, queued d [VList [VStr "Z"; VFloat 1; py_wires ws]]).
Proof. intros. repeat split; vm_compute; reflexivity. Qed.

Lemma basis_state_loop (l : list (pyval * Z)) d :
  for_each l (fun bw =>
    if py_eq_one bw.1 then _append_op_to_queue "RX" (VFloat np_pi) [bw.2] else ret tt) d
  = (Ret tt, queued d ((fun bw => VList [VStr "X"; VFloat 1; py_wires [bw.2]])
                         <$> List.filter (fun bw => py_eq_one bw.1) l)).
Proof.
  revert d. induction l as [|[b w] l IH]; intros d.
  - cbn. by rewrite queued_nil.
  - cbn [for_each List.filter fst snd]. unfold bind at 1.
    destruct (py_eq_one b).
    + rewrite _append_op_to_queue_unfold, _operation_map_RX.
      cbn [py_div py_number]. rewrite IH, queued_app. reflexivity.
    + cbn [ret]. apply IH.
Qed.

(** C6: a basis-state preparation queues one X entry with angle 1.0 for each
    bit equal to 1, on that bit's wire and in order, and nothing for the
    other bits; with bits [1,0,1] on wires [0,1,2] and an empty buffer the
    buffer becomes the two entries for wires 0 and 2. *)
Theorem basis_state_bit_flips :
  (forall bits ws d,
      _apply_operation (op "BasisState" [VList bits] ws) VNone None d
      = (Ret tt, queued d (bit_flips bits ws)))
  /\ (forall d, circuit d = [] ->
        let r := _apply_operation
                   (op "BasisState" [VList [VInt 1; VInt 0; VInt 1]] [0; 1; 2])
                   VNone None d in
        r.1 = Ret tt
        /\ circuit r.2 = [VList [VStr "X"; VFloat 1; VList [VInt 0]];
                          VList [VStr "X"; VFloat 1; VList [VInt 2]]]).
Proof.
  assert (Hgen : forall bits ws d,
      _apply_operation (op "BasisState" [VList bits] ws) VNone None d
      = (Ret tt, queued d (bit_flips bits ws))).
  { intros bits ws d. unfold _apply_operation, op.
    cbn [name parameters wires length Nat.eqb nth py_or py_truthy String.eqb
         Ascii.eqb Bool.eqb].
    unfold bind at 1, pure_call. cbn [py_iter].
    apply basis_state_loop. }
  split; [ exact Hgen | ].
  intros d Hd r. subst r. rewrite Hgen. cbn [fst snd].
  split; [ reflexivity | ]. rewrite circuit_queued, Hd. reflexivity.
Qed.

Lemma basis_state_bit_flips_witness :
  let r := _apply_operation
             (op "BasisState" [VList [VInt 1; VInt 0; VInt 1]] [0; 1; 2])
             VNone None example_device in
  r.1 = Ret tt
  /\ circuit r.2 = [VList [VStr "X"; VFloat 1; VList [VInt 0]];
                    VList [VStr "X"; VFloat 1; VList [VInt 2]]].
Proof. apply (proj2 basis_state_bit_flips example_device). reflexivity. Defined.

Lemma absent_name_plain n :
  _operation_map !! n = None ->
  String.eqb n "R" = false /\ String.eqb n "BasisState" = false
  /\ String.eqb n "Hadamard" = false /\ String.eqb n "PauliX" = false
  /\ String.eqb n "PauliY" = false /\ String.eqb n "PauliZ" = false
  /\ String.eqb n "MS" = false.
Proof.
  intros Hn.
  repeat split; apply String.eqb_neq; intros ->; vm_compute in Hn; discriminate.
Qed.

(** An operation whose name is not in the table goes to
    [_append_op_to_queue] under its own name. *)
Lemma _apply_operation_absent n ps ws d :
  _operation_map !! n = None ->
  _apply_operation (op n ps ws) VNone None d
  = _append_op_to_queue n (pulled_par ps) ws d.
Proof.
  intros Hn. destruct (absent_name_plain n Hn) as (HR & HB & HH & HX & HY & HZ & HM).
  unfold _apply_operation, op. cbn [name parameters wires].
  rewrite HR, HB, HH, HX, HY, HZ, HM. cbn [orb].
  unfold bind at 1, ret. cbn [fst snd].
  destruct ps as [|p [|q [|r ps]]]; reflexivity.
Qed.




(** ** Properties of [apply] *)






Section ApplyProperties.
Context `{ApiClient} `{Json}.




(** C4: when the operations are queued and serialized without error and
    the gateway answers the submission with a status that is not valid,
    [apply] raises the gateway error with that status and body, and the
    submission is the only request sent: the poll loop is not entered. *)
Theorem invalid_submission_status_raises fuel ops rotations d w d1 :
  queue_and_serialize ops rotations d = (Ret tt, d1) ->
  let response := gateway w (sent w ++ [submission d1])%list in
  valid_status_code response = false ->
  apply fuel ops rotations (d, w)
  = (Raise (GatewayError (status_code response) (text response)),
     (d1, {| gateway := gateway w; sent := (sent w ++ [submission d1])%list |})).
Proof.
  intros Hq response Hinvalid. subst response.
  unfold queue_and_serialize in Hq. unfold bind at 1 in Hq.
  destruct (apply_loop 0 ops d) as [[[]|e|] da] eqn:Hloop; try discriminate.
  unfold bind at 1 in Hq.
  destruct (for_each rotations _ da) as [[[]|e|] db] eqn:Hrot; try discriminate.
  cbn in Hq. injection Hq as <-.
  unfold apply. unfold bind at 1. unfold on_device at 1. cbn [fst snd].
  rewrite Hloop.
  unfold bind at 1. unfold on_device at 1. cbn [fst snd].
  rewrite Hrot.
  cbn -[poll]. unfold submission in Hinvalid. cbn in Hinvalid.
  rewrite Hinvalid. reflexivity.
Qed.
End ApplyProperties.

Example apply_rotation_then_basis_state :
  @apply example_client example_json 5 rotation_then_basis_state []
    (example_device, refusing_world)
  = (Raise (DeviceError
              "The operation BasisState is only supported at the beginning of a circuit."),
     (queued example_device [VList [VStr "X"; VFloat (0.5 / np_pi); VList [VInt 0]]],
      refusing_world)).
Proof. vm_compute. reflexivity. Qed.




Lemma invalid_submission_status_raises_witness :
  let d1 := (@queue_and_serialize example_json [op "RX" [VFloat 0.5] [0]] []
               example_device).2 in
  @apply example_client example_json 5 [op "RX" [VFloat 0.5] [0]] []
    (example_device, refusing_world)
  = (Raise (GatewayError 403 "Forbidden"),
     (d1, {| gateway := gateway refusing_world; sent := [submission d1] |})).
Proof.
  intros d1.
  apply (@invalid_submission_status_raises example_client example_json 5
           [op "RX" [VFloat 0.5] [0]] [] example_device refusing_world d1);
    vm_compute; reflexivity.
Defined.

(** ** Samples *)










Example generate_samples_5_6 :
  generate_samples (set_samples (VList [VInt 5; VInt 6]) example_device)
  = (Ret (Array2 [[1; 0; 1]; [0; 1; 1]]),
     set_samples (VList [VInt 5; VInt 6]) example_device).
Proof. vm_compute. reflexivity. Qed.

(** ** Configuration and reset *)

Lemma preserves_bind {S A B X} (f : S -> X) (c : M S A) (k : A -> M S B) :
  preserves f c -> (forall a, preserves f (k a)) -> preserves f (x <- c ;; k x).
Proof.
  intros Hc Hk s. unfold bind. specialize (Hc s).
  destruct (c s) as [[a|e|] s1]; cbn in *; [ | done | done ].
  by rewrite Hk.
Qed.

Lemma preserves_ret {S A X} (f : S -> X) (a : A) : preserves f (ret a).
Proof. done. Qed.

Lemma preserves_raise {S A X} (f : S -> X) e : preserves f (@raise S A e).
Proof. done. Qed.

Lemma preserves_get {S X} (f : S -> X) : preserves f get.
Proof. done. Qed.

Lemma preserves_pure_call {S A X} (f : S -> X) (o : outcome A) : preserves f (pure_call o).
Proof. done. Qed.

Lemma preserves_modify {S X} (f : S -> X) (g : S -> S) :
  (forall s, f (g s) = f s) -> preserves f (modify g).
Proof. intros Hg s. apply Hg. Qed.

Lemma preserves_for_each {S A X} (f : S -> X) (xs : list A) body :
  (forall x, preserves f (body x)) -> preserves f (for_each xs body).
Proof.
  intros Hbody. induction xs as [|x xs IH]; [ done | ].
  cbn. apply preserves_bind; [ apply Hbody | by intros _ ].
Qed.

Lemma preserves_on_device {A X} (f : AQTDevice -> X) (c : M AQTDevice A) :
  preserves f c -> preserves (fun s : System => f s.1) (on_device c).
Proof.
  intros Hc s. unfold on_device. specialize (Hc s.1). by destruct (c s.1).
Qed.

Create HintDb preserve.
#[local] Hint Resolve preserves_ret preserves_raise preserves_get
  preserves_pure_call : preserve.

Ltac preserve :=
  repeat first
    [ apply preserves_bind; [ | intros ? ]
    | apply preserves_for_each; intros ?
    | apply preserves_on_device
    | apply preserves_modify; intros ?; reflexivity
    | solve [ auto with preserve ]
    | match goal with |- preserves _ (if ?b then _ else _) => destruct b end
    | match goal with |- preserves _ (match ?o with _ => _ end) => destruct o end ].

Lemma _append_op_to_queue_initial_shots op_name par ws :
  preserves _initial_shots (_append_op_to_queue op_name par ws).
Proof. unfold _append_op_to_queue, circuit_append. preserve. Qed.

Lemma _apply_operation_initial_shots operation par ws :
  preserves _initial_shots (_apply_operation operation par ws).
Proof.
  unfold _apply_operation, circuit_append.
  pose proof _append_op_to_queue_initial_shots. preserve.
Qed.

Lemma apply_loop_initial_shots ops : forall i, preserves _initial_shots (apply_loop i ops).
Proof.
  induction ops as [|o ops IH]; intros i; [ done | ].
  cbn [apply_loop]. pose proof _apply_operation_initial_shots. preserve; try apply IH.
Qed.

Section ResetProperties.
Context `{ApiClient} `{Json}.

Lemma poll_initial_shots fuel : forall job job_query_data,
  preserves (fun s : System => _initial_shots s.1) (poll fuel job job_query_data).
Proof.
  assert (Hsubmit : forall m u b h,
             preserves (fun s : System => _initial_shots s.1) (submit m u b h)) by done.
  induction fuel as [|fuel IH]; intros job q; cbn [poll];
    unfold job_getitem, response_json; preserve; try apply IH.
Qed.

Lemma apply_initial_shots fuel ops rotations :
  preserves (fun s : System => _initial_shots s.1) (apply fuel ops rotations).
Proof.
  assert (Hsubmit : forall m u b h,
             preserves (fun s : System => _initial_shots s.1) (submit m u b h)) by done.
  pose proof _apply_operation_initial_shots.
  pose proof apply_loop_initial_shots.
  pose proof poll_initial_shots.
  unfold apply, raise_invalid_status_exception, job_getitem, response_json.
  preserve.
Qed.

Lemma set_api_configs_initial_shots environ :
  preserves _initial_shots (set_api_configs environ).
Proof.
  unfold set_api_configs. apply preserves_bind; [ done | intros d ].
  apply preserves_bind; [ by apply preserves_modify | intros _ ].
  apply preserves_bind; [ done | intros d' ].
  destruct (_api_key d') as [[|c k]|]; preserve.
Qed.

Lemma reset_initial_shots environ : preserves _initial_shots (reset environ).
Proof.
  pose proof set_api_configs_initial_shots. unfold reset. preserve.
Qed.

Lemma generate_samples_initial_shots : preserves _initial_shots generate_samples.
Proof. unfold generate_samples. preserve. Qed.

Lemma in_use_initial_shots shots0 d : in_use shots0 d -> _initial_shots d = shots0.
Proof.
  induction 1 as [wires shots api_key environ d Hs Hinit | v d _ IH | environ d _ IH
                 | fuel ops rotations d w _ IH | operation par ws d _ IH | d _ IH].
  - unfold __init__ in Hinit.
    pose proof (set_api_configs_initial_shots environ) as Hp.
    match type of Hinit with ?c ?s = _ => specialize (Hp s) end.
    rewrite Hinit in Hp. cbn in Hp. congruence.
  - exact IH.
  - by rewrite reset_initial_shots.
  - by rewrite (apply_initial_shots fuel ops rotations (d, w)).
  - by rewrite _apply_operation_initial_shots.
  - by rewrite generate_samples_initial_shots.
Qed.

Lemma reset_fields environ d :
  let r := reset environ d in
  circuit r.2 = [] /\ circuit_json r.2 = "" /\ samples r.2 = VNone
  /\ shots r.2 = _initial_shots d.
Proof.
  unfold reset, set_api_configs, bind, get, modify. cbn.
  destruct (str_or (_api_key d) (environ !! "AQT_TOKEN")) as [[|c k]|]; cbn; done.
Qed.

(** C5: after [reset], whether it returns or raises and whatever the
    device state was, the circuit buffer and the serialized circuit are
    empty, the samples are [None] and the shot count is the one stored at
    construction; on a device constructed for [shots0] shots and used
    through its methods that count is [shots0]. *)
Theorem reset_clears_and_restores environ d :
  let r := reset environ d in
  circuit r.2 = [] /\ circuit_json r.2 = "" /\ samples r.2 = VNone
  /\ shots r.2 = _initial_shots d
  /\ (forall shots0, in_use shots0 d -> shots r.2 = shots0).
Proof.
  destruct (reset_fields environ d) as (Hc & Hj & Hs & Hshots).
  cbn zeta. repeat split; try done.
  intros shots0 Huse. rewrite Hshots. by apply in_use_initial_shots.
Qed.
End ResetProperties.

Lemma reset_clears_and_restores_witness :
  let d := set_shots 7 (@__init__ example_client 3 (Some 100) (Some "secret") ∅).2 in
  let r := @reset example_client ∅ d in
  shots d = 7 /\ shots r.2 = 100.
Proof.
  intros d r. split; [ reflexivity | ].
  apply (proj2 (proj2 (proj2 (proj2
           (@reset_clears_and_restores example_client example_json ∅ d))))).
  apply in_use_set_shots.
  apply (in_use_init 100 3 (Some 100) (Some "secret") ∅); reflexivity.
Defined.

Section ConfigProperties.
Context `{ApiClient} `{Json}.


Lemma set_api_configs_key environ d key :
  key <> "" ->
  str_or (_api_key d) (environ !! "AQT_TOKEN") = Some key ->
  set_api_configs environ d
  = (Ret tt,
     set_hostname (join_path BASE_HOSTNAME TARGET_PATH)
       (set_data (<["access_token" := VStr key]> (<["no_qubits" := VInt (num_wires d)]> ∅))
          (set_header {[ "Ocp-Apim-Subscription-Key" := key ]}
             (set_api_key (Some key) d)))).
Proof.
  intros Hne Hk. unfold set_api_configs, bind, get, modify. cbn. rewrite Hk.
  destruct key as [|c k]; [ done | reflexivity ].
Qed.



End ConfigProperties.


(** ** A complete run *)

Example apply_runs_to_completion :
  let r := @apply example_client example_json 5 [op "Hadamard" [] [0]] []
             (example_device, serving_world) in
  r.1 = Ret tt
  /\ samples r.2.1 = VList [VInt 5; VInt 6]
  /\ circuit r.2.1 = [VList [VStr "Y"; VFloat 0.5; VList [VInt 0]]]
  /\ length (sent r.2.2) = 3%nat
  /\ (generate_samples r.2.1).1 = Ret (Array2 [[1; 0; 1]; [0; 1; 1]]).
Proof. vm_compute. repeat split. Qed.

Example apply_times_out_without_fuel :
  (@apply example_client example_json 1 [op "Hadamard" [] [0]] []
     (example_device, serving_world)).1 = Timeout.
Proof. vm_compute. reflexivity. Qed.

(** ** The course of [apply] *)

Lemma py_ne_str_false v s : py_ne_str v s = false <-> v = VStr s.
Proof.
  split.
  - destruct v; cbn; try discriminate. intros Hs.
    apply negb_false_iff, String.eqb_eq in Hs. by subst.
  - intros ->. cbn. by rewrite String.eqb_refl.
Qed.

Section Course.
Context `{ApiClient} `{Json}.

(** [apply], case by case. *)
Lemma apply_unfold fuel ops rotations d w :
  apply fuel ops rotations (d, w)
  = match queue_and_serialize ops rotations d with
    | (Ret _, d1) =>
        let req := submission d1 in
        let response := answer req w in
        if negb (valid_status_code response)
        then (Raise (GatewayError (status_code response) (text response)),
              (d1, send req w))
        else
          match json response with
          | None => (Raise JSONDecodeError, (d1, send req w))
          | Some job =>
              match job !! "id" with
              | None => (Raise (KeyError "id"), (d1, send req w))
              | Some id =>
                  match poll fuel job (job_query id d1) (d1, send req w) with
                  | (Ret job', s') =>
                      match job' !! "samples" with
                      | None => (Raise (KeyError "samples"), s')
                      | Some v => (Ret tt, (set_samples v s'.1, s'.2))
                      end
                  | (Raise e, s') => (Raise e, s')
                  | (Timeout, s') => (Timeout, s')
                  end
              end
          end
    | (Raise e, d1) => (Raise e, (d1, w))
    | (Timeout, d1) => (Timeout, (d1, w))
    end.
Proof.
  unfold queue_and_serialize, apply, bind, on_device. cbn [fst snd].
  destruct (apply_loop 0 ops d) as [[[]|e|] da]; cbn [fst snd]; [ | reflexivity .. ].
  destruct (for_each rotations _ da) as [[[]|e|] db]; cbn [fst snd]; [ | reflexivity .. ].
  cbn -[poll]. unfold answer, submission, send. cbn -[poll].
  destruct (valid_status_code _); cbn -[poll]; [ | reflexivity ].
  unfold response_json.
  destruct (json _) as [job|]; cbn -[poll]; [ | reflexivity ].
  unfold job_getitem at 1.
  destruct (job !! "id") as [id|]; cbn -[poll]; [ | reflexivity ].
  unfold job_query. cbn -[poll].
  match goal with |- context [poll fuel job ?q ?s] =>
    destruct (poll fuel job q s) as [[job'|e|] [d2 w2]] end; [ | reflexivity .. ].
  unfold job_getitem. destruct (job' !! "samples"); reflexivity.
Qed.

(** One round of the poll loop. *)
Lemma poll_finished fuel job q s :
  job !! "status" = Some (VStr "finished") -> poll fuel job q s = (Ret job, s).
Proof. intros Hs. destruct fuel; cbn; unfold bind, job_getitem; by rewrite Hs. Qed.

Lemma poll_no_status fuel job q s :
  job !! "status" = None -> poll fuel job q s = (Raise (KeyError "status"), s).
Proof. intros Hs. destruct fuel; cbn; unfold bind, job_getitem; by rewrite Hs. Qed.

Lemma poll_out_of_fuel job q s st :
  job !! "status" = Some st -> py_ne_str st "finished" = true ->
  poll 0 job q s = (Timeout, s).
Proof. intros Hs Hne. cbn. unfold bind, job_getitem. by rewrite Hs; cbn; rewrite Hne. Qed.

Lemma poll_step fuel job q d w st :
  job !! "status" = Some st -> py_ne_str st "finished" = true ->
  poll (S fuel) job q (d, w)
  = match json (answer (poll_request d q) w) with
    | Some job' => poll fuel job' q (d, send (poll_request d q) w)
    | None => (Raise JSONDecodeError, (d, send (poll_request d q) w))
    end.
Proof.
  intros Hs Hne. cbn [poll]. unfold bind at 1, job_getitem. rewrite Hs. cbn [ret].
  rewrite Hne. unfold bind, get, submit, response_json, answer, send, poll_request.
  cbn [fst snd]. by destruct (json _).
Qed.

(** The ways a round can go. *)
Lemma poll_cases fuel job q d w :
  (job !! "status" = Some (VStr "finished") /\ poll fuel job q (d, w) = (Ret job, (d, w)))
  \/ (job !! "status" = None
      /\ poll fuel job q (d, w) = (Raise (KeyError "status"), (d, w)))
  \/ (exists st, job !! "status" = Some st /\ py_ne_str st "finished" = true
       /\ match fuel with
          | O => poll fuel job q (d, w) = (Timeout, (d, w))
          | S fuel' =>
              poll fuel job q (d, w)
              = match json (answer (poll_request d q) w) with
                | Some job' => poll fuel' job' q (d, send (poll_request d q) w)
                | None => (Raise JSONDecodeError, (d, send (poll_request d q) w))
                end
          end).
Proof.
  destruct (job !! "status") as [st|] eqn:Hs.
  - destruct (py_ne_str st "finished") eqn:Hne.
    + right. right. exists st. repeat split; try done.
      destruct fuel; [ by eapply poll_out_of_fuel | by eapply poll_step ].
    + apply py_ne_str_false in Hne. subst st. left. split; [ done | by apply poll_finished ].
  - right. left. split; [ done | by apply poll_no_status ].
Qed.

(** The poll loop leaves the device alone, sends only poll requests, at most
    one per unit of fuel, and ends with a finished job, a missing status, a
    body that is not JSON, or no fuel. *)
Lemma poll_spec fuel : forall job q d w,
  exists n r,
    poll fuel job q (d, w)
    = (r, (d, {| gateway := gateway w;
                 sent := (sent w ++ replicate n (poll_request d q))%list |}))
    /\ (n <= fuel)%nat
    /\ ((exists job', r = Ret job' /\ job' !! "status" = Some (VStr "finished"))
        \/ r = Raise (KeyError "status") \/ r = Raise JSONDecodeError
        \/ (r = Timeout /\ n = fuel)).
Proof.
  assert (Hw : forall w : World, {| gateway := gateway w; sent := (sent w ++ [])%list |} = w).
  { intros [g l]. cbn. by rewrite app_nil_r. }
  induction fuel as [|fuel IH]; intros job q d w.
  - destruct (poll_cases 0 job q d w) as [[Hs ->] | [[Hs ->] | (st & Hs & Hne & ->)]];
      exists 0%nat; eexists; cbn [replicate]; rewrite Hw;
      (split; [ reflexivity | split; [ lia | eauto 10 ] ]).
  - destruct (poll_cases (S fuel) job q d w) as [[Hs ->] | [[Hs ->] | (st & Hs & Hne & ->)]].
    + exists 0%nat. eexists. cbn [replicate]. rewrite Hw.
      split; [ reflexivity | split; [ lia | eauto 10 ] ].
    + exists 0%nat. eexists. cbn [replicate]. rewrite Hw.
      split; [ reflexivity | split; [ lia | eauto 10 ] ].
    + destruct (json _) as [job'|].
      * destruct (IH job' q d (send (poll_request d q) w)) as (n & r & -> & Hn & Hr).
        exists (S n), r. cbn [send gateway sent replicate].
        rewrite <- app_assoc. cbn [app].
        split; [ reflexivity | split; [ lia | ] ].
        destruct Hr as [Hr | [Hr | [Hr | [Hr ->]]]]; eauto 10.
      * exists 1%nat. eexists. cbn [replicate send].
        split; [ reflexivity | split; [ lia | eauto 10 ] ].
Qed.
End Course.

(** ** What [apply] does, in full *)

Lemma apply_loop_spec ops : forall i d,
  exists es r,
    apply_loop i ops d = (r, queued d es)
    /\ Forall named es
    /\ (r = Ret tt
        \/ exists e, r = Raise e
             /\ (translation_error e
                 \/ exists j operation,
                      (0 < i + j)%nat /\ ops !! j = Some operation
                      /\ state_prep operation = true /\ e = ordering_error operation)).
Proof.
  induction ops as [|o ops IH]; intros i d.
  - exists [], (Ret tt). rewrite queued_nil. split; [ done | split; [ constructor | by left ] ].
  - cbn [apply_loop]. unfold bind at 1.
    destruct ((0 <? i)%nat && _) eqn:Hcheck.
    + exists [], (Raise (ordering_error o)). rewrite queued_nil.
      split; [ reflexivity | split; [ constructor | ] ]. right.
      eexists. split; [ reflexivity | ]. right. exists 0%nat, o.
      apply andb_prop in Hcheck as [Hi Hsp]. apply Nat.ltb_lt in Hi.
      repeat split; [ lia | done ].
    + cbn [ret]. unfold bind.
      destruct (_apply_operation_appends o VNone None d) as (es & Hs & Hn & Hr).
      destruct (_apply_operation o VNone None d) as [r d1]. cbn [fst snd] in *. subst d1.
      destruct Hr as [-> | (e & -> & He)].
      * destruct (IH (S i) (queued d es)) as (es' & r & -> & Hn' & Hr).
        exists (es ++ es')%list, r. rewrite queued_app.
        split; [ done | split; [ by apply Forall_app | ] ].
        destruct Hr as [-> | (e & -> & He)]; [ by left | right ].
        eexists. split; [ reflexivity | ].
        destruct He as [He | (j & o' & Hj & Ho' & Hsp & ->)]; [ by left | right ].
        exists (S j), o'. repeat split; [ lia | done | done ].
      * exists es, (Raise e). split; [ done | split; [ done | ] ].
        right. eexists. split; [ reflexivity | by left ].
Qed.

Section Effect.
Context `{ApiClient} `{Json}.

Lemma queue_and_serialize_spec ops rotations d :
  exists es r d1,
    queue_and_serialize ops rotations d = (r, d1)
    /\ Forall named es
    /\ (r = Ret tt /\ d1 = serialized d es
        \/ exists e, r = Raise e /\ d1 = queued d es
             /\ (translation_error e \/ misplaced ops e)).
Proof.
  unfold queue_and_serialize. unfold bind at 1.
  destruct (apply_loop_spec ops 0 d) as (es & r & -> & Hn & [-> | (e & -> & He)]).
  - unfold bind at 1.
    destruct (for_each_appends rotations
                (fun operation => _apply_operation operation VNone None) (queued d es)
                (fun x d' => _apply_operation_appends x VNone None d'))
      as (es' & Hs & Hn' & Hr).
    destruct (for_each rotations _ (queued d es)) as [r d1]. cbn [fst snd] in *.
    subst d1. rewrite queued_app.
    exists (es ++ es')%list.
    destruct Hr as [-> | (e & -> & He)].
    + eexists _, _. split; [ reflexivity | split; [ by apply Forall_app | by left ] ].
    + eexists _, _. split; [ reflexivity | split; [ by apply Forall_app | right ] ].
      eexists. split; [ reflexivity | split; [ done | by left ] ].
  - exists es. eexists _, _. split; [ reflexivity | split; [ done | right ] ].
    eexists. split; [ reflexivity | split; [ done | ] ].
    destruct He as [He | (j & o & Hj & Ho & Hsp & ->)]; [ by left | right ].
    by exists j, o.
Qed.

Lemma set_samples_same d : set_samples (samples d) d = d.
Proof. by destruct d. Qed.

(** Either the translation fails, and nothing is sent, or the circuit is
    serialized and submitted, polls follow, and the samples are set when the
    job is finished and has some. *)
Lemma apply_spec fuel ops rotations d w :
  exists es r d' reqs,
    apply fuel ops rotations (d, w)
    = (r, (d', {| gateway := gateway w; sent := (sent w ++ reqs)%list |}))
    /\ Forall named es
    /\ ((exists e, r = Raise e /\ d' = queued d es /\ reqs = []
           /\ (translation_error e \/ misplaced ops e))
        \/ (exists polls sm,
              d' = set_samples sm (serialized d es)
              /\ reqs = submission (serialized d es) :: polls
              /\ (length polls <= fuel)%nat
              /\ Forall (fun p => exists q, p = poll_request (serialized d es) q) polls
              /\ (r = Ret tt
                  \/ sm = samples d
                     /\ (r = Timeout /\ length polls = fuel
                         \/ exists e, r = Raise e /\ gateway_side_error e)))).
Proof.
  assert (Hw : forall w : World, {| gateway := gateway w; sent := (sent w ++ [])%list |} = w).
  { intros [g l]. cbn. by rewrite app_nil_r. }
  rewrite apply_unfold.
  destruct (queue_and_serialize_spec ops rotations d)
    as (es & r0 & d0 & -> & Hn & [[-> ->] | (e & -> & -> & He)]); exists es.
  2:{ exists (Raise e), (queued d es), []. rewrite Hw.
      split; [ done | split; [ done | left ] ]. by exists e. }
  cbn zeta. set (d1 := serialized d es).
  assert (Hsame : forall r polls,
            (length polls <= fuel)%nat ->
            Forall (fun p => exists q, p = poll_request d1 q) polls ->
            (r = Timeout /\ length polls = fuel
             \/ exists e, r = Raise e /\ gateway_side_error e) ->
            exists (r' : outcome unit) d' reqs,
              (r, (d1, {| gateway := gateway w;
                          sent := (sent w ++ submission d1 :: polls)%list |}))
              = (r', (d', {| gateway := gateway w; sent := (sent w ++ reqs)%list |}))
              /\ Forall named es
              /\ ((exists e, r' = Raise e /\ d' = queued d es /\ reqs = []
                     /\ (translation_error e \/ misplaced ops e))
                  \/ (exists polls sm,
                        d' = set_samples sm d1
                        /\ reqs = submission d1 :: polls
                        /\ (length polls <= fuel)%nat
                        /\ Forall (fun p => exists q, p = poll_request d1 q) polls
                        /\ (r' = Ret tt
                            \/ sm = samples d
                               /\ (r' = Timeout /\ length polls = fuel
                                   \/ exists e, r' = Raise e /\ gateway_side_error e))))).
  { intros r polls Hlen Hpolls Hr. exists r, d1, (submission d1 :: polls).
    split; [ reflexivity | split; [ done | right ] ].
    exists polls, (samples d). change (samples d) with (samples d1).
    rewrite set_samples_same. eauto 10. }
  assert (Hfail : forall e, gateway_side_error e ->
            exists (r' : outcome unit) d' reqs,
              (Raise e, (d1, send (submission d1) w))
              = (r', (d', {| gateway := gateway w; sent := (sent w ++ reqs)%list |}))
              /\ Forall named es
              /\ ((exists e, r' = Raise e /\ d' = queued d es /\ reqs = []
                     /\ (translation_error e \/ misplaced ops e))
                  \/ (exists polls sm,
                        d' = set_samples sm d1
                        /\ reqs = submission d1 :: polls
                        /\ (length polls <= fuel)%nat
                        /\ Forall (fun p => exists q, p = poll_request d1 q) polls
                        /\ (r' = Ret tt
                            \/ sm = samples d
                               /\ (r' = Timeout /\ length polls = fuel
                                   \/ exists e, r' = Raise e /\ gateway_side_error e))))).
  { intros e He. apply (Hsame (Raise e) []); [ cbn; lia | constructor | ].
    right. by exists e. }
  destruct (valid_status_code _); cbn [negb];
    [ | apply Hfail; left; by eexists _, _ ].
  destruct (json _) as [job|]; [ | apply Hfail; unfold gateway_side_error; tauto ].
  destruct (job !! "id") as [id|]; [ | apply Hfail; unfold gateway_side_error; tauto ].
  destruct (poll_spec fuel job (job_query id d1) d1 (send (submission d1) w))
    as (n & r & -> & Hn' & Hr).
  cbn [send gateway sent fst snd]. rewrite <- app_assoc. cbn [app].
  assert (Hpolls : Forall (fun p => exists q, p = poll_request d1 q)
                     (replicate n (poll_request d1 (job_query id d1)))).
  { apply Forall_replicate. by eexists. }
  assert (Hlen : (length (replicate n (poll_request d1 (job_query id d1))) <= fuel)%nat)
    by by rewrite length_replicate.
  destruct Hr as [(job' & -> & _) | [-> | [-> | [-> ->]]]].
  - destruct (job' !! "samples") as [v|].
    + eexists (Ret tt), _, _. split; [ reflexivity | split; [ done | right ] ].
      eexists _, v. eauto 10.
    + apply Hsame; [ done | done | right ]. eexists. split; [ done | ].
      unfold gateway_side_error. tauto.
  - apply Hsame; [ done | done | right ]. eexists. split; [ done | ].
    unfold gateway_side_error. tauto.
  - apply Hsame; [ done | done | right ]. eexists. split; [ done | ].
    unfold gateway_side_error. tauto.
  - apply Hsame; [ done | done | left ]. by rewrite length_replicate.
Qed.
End Effect.

(** ** Properties of a whole [apply] *)

Section WholeApply.
Context `{ApiClient} `{Json}.

(** X1: The only device error [apply] raises is the ordering error of a state
    preparation that stands at a position other than the first, and it is
    raised before anything is sent. *)
Theorem apply_device_error_is_ordering_error fuel ops rotations d w msg d' w' :
  apply fuel ops rotations (d, w) = (Raise (DeviceError msg), (d', w')) ->
  w' = w
  /\ exists i operation,
       (0 < i)%nat /\ ops !! i = Some operation /\ state_prep operation = true
       /\ DeviceError msg = ordering_error operation.
Proof.
  intros Happly.
  destruct (apply_spec fuel ops rotations d w) as (es & r & d1 & reqs & Heq & _ & Hcase).
  rewrite Heq in Happly. injection Happly as -> -> <-.
  destruct Hcase as [(e & [= <-] & _ & -> & He) | (polls & sm & _ & _ & _ & _ & Hr)].
  - split; [ destruct w; cbn; by rewrite app_nil_r | ].
    destruct He as [He | He]; [ | exact He ].
    destruct He as [He | [He | [He | [k He]]]]; discriminate.
  - destruct Hr as [Hr | (_ & [[Hr _] | (e & [= <-] & He)])]; try discriminate.
    destruct He as [(c & b & He) | [He | [He | [He | He]]]]; discriminate.
Qed.


(** X3: [apply] leaves the wire count, the shot counts, the key, the header and
    the host of the device as they are, whatever its outcome. *)
Theorem apply_keeps_configuration fuel ops rotations d w :
  let d' := (apply fuel ops rotations (d, w)).2.1 in
  num_wires d' = num_wires d /\ shots d' = shots d
  /\ _initial_shots d' = _initial_shots d /\ _api_key d' = _api_key d
  /\ header d' = header d /\ hostname d' = hostname d.
Proof.
  destruct (apply_spec fuel ops rotations d w) as (es & r & d1 & reqs & -> & _ & Hcase).
  cbn [fst snd].
  destruct Hcase as [(e & _ & -> & _) | (polls & sm & -> & _)]; repeat split.
Qed.

(** X4: The samples of the device change only when [apply] returns normally. *)
Theorem apply_sets_samples_only_on_success fuel ops rotations d w :
  (apply fuel ops rotations (d, w)).1 <> Ret tt ->
  samples (apply fuel ops rotations (d, w)).2.1 = samples d.
Proof.
  destruct (apply_spec fuel ops rotations d w) as (es & r & d1 & reqs & -> & _ & Hcase).
  cbn [fst snd]. intros Hr.
  destruct Hcase as [(e & _ & -> & _) | (polls & sm & -> & _ & _ & _ & Hsm)];
    [ reflexivity | ].
  destruct Hsm as [-> | [-> _]]; [ done | reflexivity ].
Qed.

(** X5: Every request of an [apply] is a PUT to the host of the device with the
    header of the device; the gateway receives at most one request more than
    the fuel of the poll loop, and earlier requests stay in the log. *)
Theorem apply_requests_use_device_host_and_header fuel ops rotations d w :
  exists reqs,
    sent (apply fuel ops rotations (d, w)).2.2 = (sent w ++ reqs)%list
    /\ (length reqs <= S fuel)%nat
    /\ Forall (fun req => req_method req = "PUT" /\ req_url req = hostname d
                          /\ req_header req = header d) reqs.
Proof.
  destruct (apply_spec fuel ops rotations d w) as (es & r & d1 & reqs & -> & _ & Hcase).
  exists reqs. cbn [fst snd sent]. split; [ done | ].
  destruct Hcase as [(e & _ & _ & -> & _) | (polls & sm & _ & -> & Hlen & Hpolls & _)].
  - split; [ cbn; lia | constructor ].
  - split; [ cbn; lia | ]. constructor; [ done | ].
    eapply Forall_impl; [ exact Hpolls | ]. by intros req [q ->].
Qed.

(** X6: When an [apply] has contacted the gateway, its first request is the
    submission built from the device state it leaves: the serialized circuit
    is the serialization of the circuit buffer, and the body carries it
    together with the shot count. *)
Theorem apply_submits_what_it_serialized fuel ops rotations d w r d' w' :
  apply fuel ops rotations (d, w) = (r, (d', w')) ->
  sent w' <> sent w ->
  exists polls,
    sent w' = (sent w ++ submission d' :: polls)%list
    /\ circuit_json d' = serialize (circuit d')
    /\ req_body (submission d') !! "data" = Some (VStr (serialize (circuit d')))
    /\ req_body (submission d') !! "repetitions" = Some (VInt (shots d')).
Proof.
  intros Happly Hsent.
  destruct (apply_spec fuel ops rotations d w) as (es & r1 & d1 & reqs & Heq & _ & Hcase).
  rewrite Heq in Happly. injection Happly as -> -> <-. cbn [sent] in *.
  destruct Hcase as [(e & _ & _ & -> & _) | (polls & sm & -> & -> & _)].
  - by rewrite app_nil_r in Hsent.
  - exists polls. split; [ reflexivity | split; [ reflexivity | ] ].
    unfold submission. cbn [req_body].
    split; [ apply lookup_insert_eq | ].
    rewrite lookup_insert_ne by done. apply lookup_insert_eq.
Qed.
End WholeApply.

(** ** The poll loop *)

Section PollLoop.
Context `{ApiClient} `{Json}.

Lemma poll_more_fuel fuel : forall job q d w k,
  (poll fuel job q (d, w)).1 <> Timeout ->
  poll (fuel + k) job q (d, w) = poll fuel job q (d, w).
Proof.
  induction fuel as [|fuel IH]; intros job q d w k Hr.
  - destruct (poll_cases 0 job q d w)
      as [[Hs Hp] | [[Hs Hp] | (st & Hs & Hne & Hp)]]; rewrite Hp in *.
    + by apply poll_finished.
    + by apply poll_no_status.
    + done.
  - destruct (poll_cases (S fuel) job q d w)
      as [[Hs Hp] | [[Hs Hp] | (st & Hs & Hne & Hp)]]; rewrite Hp in *.
    + by apply poll_finished.
    + by apply poll_no_status.
    + cbn [Nat.add]. rewrite (poll_step _ _ _ _ _ st) by done.
      destruct (json _) as [job'|]; [ by apply IH | reflexivity ].
Qed.

(** X7: A result that [apply] reaches with some fuel is the result it reaches
    with any larger fuel: running out of fuel is the only effect of the
    bound. *)
Theorem apply_result_stable_under_more_fuel fuel k ops rotations d w :
  (apply fuel ops rotations (d, w)).1 <> Timeout ->
  apply (fuel + k) ops rotations (d, w) = apply fuel ops rotations (d, w).
Proof.
  rewrite !apply_unfold.
  destruct (queue_and_serialize ops rotations d) as [[[]|e|] d1]; [ | done .. ].
  cbn zeta. destruct (negb _); [ done | ].
  destruct (json _) as [job|]; [ | done ].
  destruct (job !! "id") as [id|]; [ | done ].
  intros Hr. rewrite poll_more_fuel; [ done | ].
  destruct (poll fuel job _ _) as [[job'|e|] s']; cbn in *; done.
Qed.

Lemma poll_unfinished fuel : forall job q d w response st,
  (forall history, gateway w history = response) ->
  json response = Some job ->
  job !! "status" = Some st ->
  py_ne_str st "finished" = true ->
  poll fuel job q (d, w)
  = (Timeout, (d, {| gateway := gateway w;
                     sent := (sent w ++ replicate fuel (poll_request d q))%list |})).
Proof.
  induction fuel as [|fuel IH]; intros job q d w response st Hg Hj Hs Hne.
  - rewrite (poll_out_of_fuel _ _ _ st) by done. cbn [replicate].
    destruct w. cbn. by rewrite app_nil_r.
  - rewrite (poll_step _ _ _ _ _ st) by done.
    unfold answer. rewrite Hg, Hj.
    rewrite (IH job q d (send (poll_request d q) w) response st); try done.
    cbn [send gateway sent replicate]. by rewrite <- app_assoc.
Qed.

(** X8: The poll loop has no exit for a job that does not finish: when the
    gateway keeps answering with the same accepted job whose status is not
    the string "finished" (an error status included), [apply] is still
    polling after any number of requests, and each unit of fuel is one poll
    with the job id and the key. *)
Theorem apply_polls_until_finished fuel ops rotations d w d1 response job id st :
  queue_and_serialize ops rotations d = (Ret tt, d1) ->
  (forall history, gateway w history = response) ->
  valid_status_code response = true ->
  json response = Some job ->
  job !! "id" = Some id ->
  job !! "status" = Some st ->
  py_ne_str st "finished" = true ->
  apply fuel ops rotations (d, w)
  = (Timeout,
     (d1, {| gateway := gateway w;
             sent := (sent w ++ submission d1
                        :: replicate fuel (poll_request d1 (job_query id d1)))%list |})).
Proof.
  intros Hq Hg Hv Hj Hid Hs Hne. rewrite apply_unfold, Hq. cbn zeta.
  unfold answer. rewrite Hg, Hv, Hj, Hid. cbn [negb].
  rewrite (poll_unfinished fuel job _ d1 _ response st); try done.
  cbn [send gateway sent]. by rewrite <- app_assoc.
Qed.

(** X9: When the gateway accepts the submission and the job in its answer is
    already finished, [apply] returns after that single request, without a
    poll, and stores the samples of the answer. *)
Theorem apply_finished_at_once fuel ops rotations d w d1 job id v :
  queue_and_serialize ops rotations d = (Ret tt, d1) ->
  let response := answer (submission d1) w in
  valid_status_code response = true ->
  json response = Some job ->
  job !! "id" = Some id ->
  job !! "status" = Some (VStr "finished") ->
  job !! "samples" = Some v ->
  apply fuel ops rotations (d, w)
  = (Ret tt, (set_samples v d1, send (submission d1) w)).
Proof.
  intros Hq response Hv Hj Hid Hs Hsm. subst response.
  rewrite apply_unfold, Hq. cbn zeta. rewrite Hv, Hj, Hid. cbn [negb].
  rewrite poll_finished by done. by rewrite Hsm.
Qed.

(** X10: An accepted answer that is not what [apply] expects ends it with the
    error of the first thing missing, after the single submission and with
    the samples untouched: a body that is not JSON, a job without "id", a job
    without "status", a finished job without "samples". *)
Theorem apply_malformed_answer fuel ops rotations d w d1 :
  queue_and_serialize ops rotations d = (Ret tt, d1) ->
  let response := answer (submission d1) w in
  valid_status_code response = true ->
  (json response = None ->
     apply fuel ops rotations (d, w)
     = (Raise JSONDecodeError, (d1, send (submission d1) w)))
  /\ (forall job, json response = Some job -> job !! "id" = None ->
        apply fuel ops rotations (d, w)
        = (Raise (KeyError "id"), (d1, send (submission d1) w)))
  /\ (forall job id, json response = Some job -> job !! "id" = Some id ->
        job !! "status" = None ->
        apply fuel ops rotations (d, w)
        = (Raise (KeyError "status"), (d1, send (submission d1) w)))
  /\ (forall job id, json response = Some job -> job !! "id" = Some id ->
        job !! "status" = Some (VStr "finished") -> job !! "samples" = None ->
        apply fuel ops rotations (d, w)
        = (Raise (KeyError "samples"), (d1, send (submission d1) w))).
Proof.
  intros Hq response Hv. subst response.
  repeat split.
  - intros Hj. rewrite apply_unfold, Hq. cbn zeta. by rewrite Hv, Hj.
  - intros job Hj Hid. rewrite apply_unfold, Hq. cbn zeta. by rewrite Hv, Hj, Hid.
  - intros job id Hj Hid Hs. rewrite apply_unfold, Hq. cbn zeta.
    rewrite Hv, Hj, Hid. cbn [negb]. by rewrite poll_no_status.
  - intros job id Hj Hid Hs Hsm. rewrite apply_unfold, Hq. cbn zeta.
    rewrite Hv, Hj, Hid. cbn [negb]. rewrite poll_finished by done. by rewrite Hsm.
Qed.
End PollLoop.

(** ** More on the translation of one operation *)

Lemma _apply_operation_basis_state bits ws par wsarg d :
  py_truthy par = false ->
  _apply_operation (op "BasisState" [VList bits] ws) par wsarg d
  = (Ret tt, queued d (bit_flips bits (match wsarg with
                                       | Some (w :: rest) => w :: rest
                                       | _ => ws
                                       end))).
Proof.
  intros Hpar. unfold _apply_operation, op.
  cbn [name parameters wires length Nat.eqb nth String.eqb Ascii.eqb Bool.eqb].
  unfold py_or. rewrite Hpar.
  unfold bind at 1, pure_call. cbn [py_iter].
  apply basis_state_loop.
Qed.

(** The three ways a translation can go: it fails and leaves the device as
    it was, or it is a basis-state preparation and queues bit flips, or it
    queues exactly one entry. *)
Lemma _apply_operation_cases operation par ws d :
  (exists e, _apply_operation operation par ws d = (Raise e, d) /\ translation_error e)
  \/ (name operation = "BasisState"
      /\ exists bits ws', _apply_operation operation par ws d
                          = (Ret tt, queued d (bit_flips bits ws')))
  \/ (name operation <> "BasisState"
      /\ exists entry, _apply_operation operation par ws d = (Ret tt, queued d [entry])
                       /\ named entry).
Proof.
  assert (Happend : forall n p ws',
            (forall v, _operation_map !! n = Some v -> v <> None) ->
            (exists e, _append_op_to_queue n p ws' d = (Raise e, d) /\ translation_error e)
            \/ exists entry, _append_op_to_queue n p ws' d = (Ret tt, queued d [entry])
                             /\ named entry).
  { intros n p ws' Hnat. rewrite _append_op_to_queue_unfold.
    destruct (py_div_cases p np_pi) as [(f & _ & ->) | [-> | ->]].
    - destruct (_operation_map !! n) as [[s|]|] eqn:Hn.
      + right. eexists. split; [ reflexivity | by eexists _, _ ].
      + by destruct (Hnat None).
      + left. eexists. split; [ reflexivity | unfold translation_error; eauto 10 ].
    - left. eexists. split; [ reflexivity | unfold translation_error; eauto ].
    - left. eexists. split; [ reflexivity | unfold translation_error; eauto ]. }
  assert (Hnat : forall m, m = "RX" \/ m = "RY" \/ m = "RZ" \/ m = "MS" ->
            forall v, _operation_map !! m = Some v -> v <> None).
  { intros m Hm v Hv.
    destruct Hm as [-> | [-> | [-> | ->]]]; vm_compute in Hv; by inversion Hv. }
  unfold _apply_operation.
  destruct operation as [n ps wsop]; cbn [name parameters wires].
  set (par' := if (length ps =? 1)%nat then _ else _).
  set (ws' := match ws with Some (w :: rest) => _ | _ => _ end).
  clearbody par' ws'.
  destruct (String.eqb_spec n "R") as [->|HR].
  { unfold bind, pure_call.
    destruct (py_getitem_cases par' 0) as [(p0 & ->) | [-> | ->]];
      [ | left; eexists; split; [ reflexivity | unfold translation_error; eauto ] .. ].
    destruct (py_getitem_cases par' 1) as [(p1 & ->) | [-> | ->]];
      [ | left; eexists; split; [ reflexivity | unfold translation_error; eauto ] .. ].
    right. right. split; [ done | ]. eexists. split; [ reflexivity | by eexists _, _ ]. }
  destruct (String.eqb_spec n "BasisState") as [->|HB].
  { unfold bind at 1, pure_call.
    destruct par'; cbn [py_iter];
      try (left; eexists; split; [ reflexivity | unfold translation_error; eauto ]).
    - right. left. split; [ done | ]. exists (chars s), ws'. apply basis_state_loop.
    - right. left. split; [ done | ]. exists l, ws'. apply basis_state_loop. }
  assert (Hone : forall n' p,
            (forall v, _operation_map !! n' = Some v -> v <> None) ->
            (exists e, _append_op_to_queue n' p ws' d = (Raise e, d) /\ translation_error e)
            \/ n <> "BasisState"
               /\ exists entry, _append_op_to_queue n' p ws' d = (Ret tt, queued d [entry])
                                /\ named entry).
  { intros n' p Hn'. destruct (Happend n' p ws' Hn') as [He | He]; [ by left | by right ]. }
  destruct (String.eqb_spec n "Hadamard") as [->|HH].
  { unfold bind, ret. cbn [fst snd].
    destruct (Hone "RY" (VFloat (0.5 * np_pi))) as [He | He]; [ apply Hnat; tauto | by left | right; by right ]. }
  destruct (String.eqb_spec n "PauliX") as [->|HX].
  { unfold bind, ret. cbn [fst snd last_char String.append orb].
    destruct (Hone "RX" (VFloat np_pi)) as [He | He]; [ apply Hnat; tauto | by left | right; by right ]. }
  destruct (String.eqb_spec n "PauliY") as [->|HY].
  { unfold bind, ret. cbn [fst snd last_char String.append orb].
    destruct (Hone "RY" (VFloat np_pi)) as [He | He]; [ apply Hnat; tauto | by left | right; by right ]. }
  destruct (String.eqb_spec n "PauliZ") as [->|HZ].
  { unfold bind, ret. cbn [fst snd last_char String.append orb].
    destruct (Hone "RZ" (VFloat np_pi)) as [He | He]; [ apply Hnat; tauto | by left | right; by right ]. }
  cbn [orb].
  destruct (String.eqb_spec n "MS") as [->|HM].
  { unfold bind at 1. unfold bind at 1. unfold pure_call at 1.
    destruct (py_mul_cases par' np_pi) as [(f & _ & ->) | [-> | ->]];
      [ | left; eexists; split; [ reflexivity | unfold translation_error; eauto ] .. ].
    cbn [ret fst snd].
    destruct (Hone "MS" (VFloat (f * np_pi))) as [He | He]; [ apply Hnat; tauto | by left | right; by right ]. }
  unfold bind, ret. cbn [fst snd].
  destruct (Hone n par') as [He | He]; [ | by left | right; by right ].
  intros v Hv ->.
  apply _operation_map_cases in Hv as [[_ Hin] | (s & Hs & _)]; [ | done ].
  rewrite !elem_of_cons, elem_of_nil in Hin. intuition congruence.
Qed.

(** X11: A translation that raises leaves the device as it was: one operation is
    queued whole or not at all. *)
Theorem translation_fails_without_effect operation par ws d :
  (_apply_operation operation par ws d).1 <> Ret tt ->
  (_apply_operation operation par ws d).2 = d.
Proof.
  destruct (_apply_operation_cases operation par ws d)
    as [(e & -> & _) | [(_ & bits & ws' & ->) | (_ & entry & -> & _)]]; cbn; done.
Qed.


(** X13: An explicit [par] that is false in Python ([None], 0, 0.0, an empty
    string or list) is taken as not given when the operation has one or two
    parameters, and so is an explicit empty list of wires. *)
Theorem false_arguments_ignored operation par ws d :
  (length (parameters operation) = 1%nat \/ length (parameters operation) = 2%nat) ->
  py_truthy par = false ->
  _apply_operation operation par ws d = _apply_operation operation VNone ws d
  /\ _apply_operation operation par (Some []) d = _apply_operation operation par None d.
Proof.
  intros Hlen Hpar. split; [ | reflexivity ].
  unfold _apply_operation, py_or. rewrite Hpar. cbn [py_truthy].
  destruct Hlen as [-> | ->]; reflexivity.
Qed.

Lemma zip_take_min {A B} (l : list A) (k : list B) :
  zip (take (length l `min` length k) l) (take (length l `min` length k) k) = zip l k.
Proof.
  revert k. induction l as [|x l IH]; intros [|y k]; cbn; try reflexivity.
  by rewrite IH.
Qed.

(** X14: A basis-state preparation pairs bits and wires as far as both go: bits
    without a wire and wires without a bit are ignored without an error, and
    when no bit equals 1 the device is left as it was. *)
Theorem basis_state_ignores_unpaired bits ws d :
  let n := (length bits `min` length ws)%nat in
  _apply_operation (op "BasisState" [VList bits] ws) VNone None d
  = _apply_operation (op "BasisState" [VList (take n bits)] (take n ws)) VNone None d
  /\ (Forall (fun bit => py_eq_one bit = false) bits ->
      _apply_operation (op "BasisState" [VList bits] ws) VNone None d = (Ret tt, d)).
Proof.
  cbn zeta. rewrite !_apply_operation_basis_state by done. split.
  - unfold bit_flips. by rewrite zip_take_min.
  - intros Hzero. rewrite <- (queued_nil d) at 2. f_equal. f_equal.
    unfold bit_flips.
    assert (Hf : List.filter (fun bw : pyval * Z => py_eq_one bw.1) (zip bits ws) = []).
    { revert ws. induction Hzero as [|b bits Hb _ IH]; intros [|w ws]; try reflexivity.
      cbn. rewrite Hb. apply IH. }
    by rewrite Hf.
Qed.

(** X15: An operation with one float parameter, other than R and BasisState,
    translates exactly when its name is among the advertised [operations]. *)
Theorem float_operation_translates_iff_advertised n theta ws d :
  n <> "R" -> n <> "BasisState" ->
  (_apply_operation (op n [VFloat theta] ws) VNone None d).1 = Ret tt
  <-> n ∈ operations.
Proof.
  intros HR HB. unfold operations. rewrite elem_of_dom. split.
  - intros Hrun. destruct (_operation_map !! n) as [v|] eqn:Hn; [ by eexists | ].
    rewrite _apply_operation_absent, _append_op_to_queue_unfold, Hn in Hrun by done.
    cbn in Hrun. discriminate.
  - intros [v Hv].
    apply _operation_map_cases in Hv as [[_ Hin] | (s & _ & Hin)];
      rewrite !elem_of_cons, elem_of_nil in Hin.
    + destruct Hin as [-> | [-> | [-> | [-> | [-> | []]]]]]; try done;
        vm_compute; reflexivity.
    + destruct Hin as [[= -> _] | [[= -> _] | [[= -> _] | [[= -> _] | [[= -> _] | []]]]]];
        try done; vm_compute; reflexivity.
Qed.

(** ** More on configuration *)

Section MoreConfig.
Context `{ApiClient}.

Lemma str_truthy_Some o : str_truthy o = true -> exists key, o = Some key /\ key <> "".
Proof. destruct o as [[|c k]|]; try discriminate. intros _. by eexists. Qed.

(** X16: Once the device holds a key, [reset] succeeds whatever the environment
    is, keeps that key, and is idempotent: a second [reset], under any
    environment, changes nothing. *)
Theorem reset_with_stored_key environ d :
  str_truthy (_api_key d) = true ->
  exists d',
    reset environ d = (Ret tt, d')
    /\ _api_key d' = _api_key d
    /\ forall environ', reset environ' d = (Ret tt, d') /\ reset environ' d' = (Ret tt, d').
Proof.
  intros Hkey. destruct (str_truthy_Some _ Hkey) as (key & Hk & Hne).
  assert (Hreset : forall environ0 d0, _api_key d0 = Some key ->
            reset environ0 d0
            = (Ret tt,
               set_hostname (join_path BASE_HOSTNAME TARGET_PATH)
                 (set_data (<["access_token" := VStr key]>
                            (<["no_qubits" := VInt (num_wires d0)]> ∅))
                    (set_header {[ "Ocp-Apim-Subscription-Key" := key ]}
                       (set_api_key (Some key)
                          (set_samples VNone (set_circuit_json ""
                             (set_circuit [] (set_shots (_initial_shots d0) d0))))))))).
  { intros environ0 d0 Hd0.
    change (reset environ0 d0)
      with (set_api_configs environ0
              (set_samples VNone (set_circuit_json ""
                 (set_circuit [] (set_shots (_initial_shots d0) d0))))).
    rewrite (set_api_configs_key environ0 _ key Hne); [ reflexivity | ].
    cbn [_api_key set_samples set_circuit_json set_circuit set_shots].
    rewrite Hd0. unfold str_or. by destruct key. }
  eexists. split; [ by apply Hreset | ].
  split; [ by rewrite Hk | ].
  intros environ'. split; [ by apply Hreset | ].
  by rewrite Hreset.
Qed.

(** X17: A device that [__init__] returns has an empty circuit buffer, no
    samples, the given number of wires, the given shot count or 200 by
    default, a non-empty key, the wire count in its request body and the
    joined host; the key is the constructor's argument whenever that is a
    non-empty string, whatever the environment holds. *)
Theorem constructed_device_fields wires shots0 api_key environ d :
  __init__ wires shots0 api_key environ = (Ret tt, d) ->
  num_wires d = wires
  /\ shots d = default 200 shots0 /\ _initial_shots d = default 200 shots0
  /\ circuit d = [] /\ circuit_json d = "" /\ samples d = VNone
  /\ str_truthy (_api_key d) = true
  /\ (str_truthy api_key = true -> _api_key d = api_key)
  /\ data d !! "no_qubits" = Some (VInt wires)
  /\ hostname d = join_path BASE_HOSTNAME TARGET_PATH.
Proof.
  unfold __init__, set_api_configs, bind, get, modify. cbn.
  unfold str_or.
  destruct (str_truthy api_key) eqn:Hk.
  - destruct (str_truthy_Some _ Hk) as (key & -> & Hne).
    destruct key as [|c k]; [ done | ]. cbn. intros [= <-]. cbn.
    repeat split; try done; rewrite lookup_insert_ne by done; apply lookup_insert_eq.
  - destruct (environ !! "AQT_TOKEN") as [[|c k]|]; cbn; try discriminate.
    intros [= <-]. cbn.
    repeat split; try done; rewrite lookup_insert_ne by done; apply lookup_insert_eq.
Qed.

End MoreConfig.

(** ** More on samples *)




(** ** The properties above on concrete inputs *)

Lemma apply_device_error_is_ordering_error_witness :
  refusing_world = refusing_world
  /\ exists i operation,
       (0 < i)%nat /\ rotation_then_basis_state !! i = Some operation
       /\ state_prep operation = true
       /\ DeviceError "The operation BasisState is only supported at the beginning of a circuit."
          = ordering_error operation.
Proof.
  apply (@apply_device_error_is_ordering_error example_client example_json 5
           rotation_then_basis_state [] example_device refusing_world _
           (queued example_device [VList [VStr "X"; VFloat (0.5 / np_pi); VList [VInt 0]]])
           refusing_world).
  vm_compute. reflexivity.
Defined.

Lemma apply_sets_samples_only_on_success_witness :
  samples (@apply example_client example_json 5 [op "RX" [VFloat 0.5] [0]] []
             (set_samples (VList [VInt 5]) example_device, refusing_world)).2.1
  = VList [VInt 5].
Proof.
  apply (@apply_sets_samples_only_on_success example_client example_json 5
           [op "RX" [VFloat 0.5] [0]] []
           (set_samples (VList [VInt 5]) example_device) refusing_world).
  vm_compute. discriminate.
Defined.

Lemma apply_submits_what_it_serialized_witness :
  exists polls,
    sent (send (submission rx_serialized) refusing_world)
    = (sent refusing_world ++ submission rx_serialized :: polls)%list
    /\ circuit_json rx_serialized = @serialize example_json (circuit rx_serialized)
    /\ req_body (submission rx_serialized) !! "data"
       = Some (VStr (@serialize example_json (circuit rx_serialized)))
    /\ req_body (submission rx_serialized) !! "repetitions"
       = Some (VInt (shots rx_serialized)).
Proof.
  apply (@apply_submits_what_it_serialized example_client example_json 5
           [op "RX" [VFloat 0.5] [0]] [] example_device refusing_world
           (Raise (GatewayError 403 "Forbidden")) rx_serialized
           (send (submission rx_serialized) refusing_world)).
  - vm_compute. reflexivity.
  - vm_compute. discriminate.
Defined.

Lemma apply_result_stable_under_more_fuel_witness :
  @apply example_client example_json (5 + 3) [op "Hadamard" [] [0]] []
    (example_device, serving_world)
  = @apply example_client example_json 5 [op "Hadamard" [] [0]] []
      (example_device, serving_world).
Proof.
  apply (@apply_result_stable_under_more_fuel example_client example_json 5 3
           [op "Hadamard" [] [0]] [] example_device serving_world).
  vm_compute. discriminate.
Defined.

Lemma apply_polls_until_finished_witness :
  @apply example_client example_json 4 [op "RX" [VFloat 0.5] [0]] []
    (example_device, stuck_world)
  = (Timeout,
     (rx_serialized,
      {| gateway := gateway stuck_world;
         sent := (sent stuck_world ++ submission rx_serialized
                    :: replicate 4 (poll_request rx_serialized
                                      (job_query (VStr "job-1") rx_serialized)))%list |})).
Proof.
  apply (@apply_polls_until_finished example_client example_json 4
           [op "RX" [VFloat 0.5] [0]] [] example_device stuck_world rx_serialized
           (gateway stuck_world [])
           (<["id" := VStr "job-1"]> {[ "status" := VStr "error" ]})
           (VStr "job-1") (VStr "error"));
    try reflexivity; vm_compute; reflexivity.
Defined.

Lemma apply_finished_at_once_witness :
  @apply example_client example_json 0 [op "RX" [VFloat 0.5] [0]] []
    (example_device, instant_world)
  = (Ret tt, (set_samples (VList [VInt 3]) rx_serialized,
              send (submission rx_serialized) instant_world)).
Proof.
  apply (@apply_finished_at_once example_client example_json 0
           [op "RX" [VFloat 0.5] [0]] [] example_device instant_world rx_serialized
           (<["id" := VStr "job-1"]>
              (<["status" := VStr "finished"]> {[ "samples" := VList [VInt 3] ]}))
           (VStr "job-1") (VList [VInt 3]));
    vm_compute; reflexivity.
Defined.

Lemma apply_malformed_answer_witness :
  @apply example_client example_json 5 [op "RX" [VFloat 0.5] [0]] []
    (example_device, garbled_world)
  = (Raise JSONDecodeError, (rx_serialized, send (submission rx_serialized) garbled_world)).
Proof.
  apply (proj1 (@apply_malformed_answer example_client example_json 5
                  [op "RX" [VFloat 0.5] [0]] [] example_device garbled_world rx_serialized
                  ltac:(vm_compute; reflexivity) ltac:(reflexivity))).
  reflexivity.
Defined.

Lemma translation_fails_without_effect_witness :
  (_apply_operation (op "PhaseShift" [VFloat 0.5] [0]) VNone None example_device).2
  = example_device.
Proof.
  apply (translation_fails_without_effect (op "PhaseShift" [VFloat 0.5] [0])
           VNone None example_device).
  vm_compute. discriminate.
Defined.


Lemma false_arguments_ignored_witness :
  _apply_operation (op "RX" [VFloat 0.5] [0]) (VFloat 0) None example_device
  = _apply_operation (op "RX" [VFloat 0.5] [0]) VNone None example_device
  /\ _apply_operation (op "RX" [VFloat 0.5] [0]) (VFloat 0) (Some []) example_device
     = _apply_operation (op "RX" [VFloat 0.5] [0]) (VFloat 0) None example_device.
Proof.
  apply (false_arguments_ignored (op "RX" [VFloat 0.5] [0]) (VFloat 0)
           None example_device).
  - left. reflexivity.
  - reflexivity.
Defined.

Lemma basis_state_ignores_unpaired_witness :
  _apply_operation (op "BasisState" [VList [VInt 0; VInt 2; VInt 0]] [0; 1]) VNone None
    example_device
  = (Ret tt, example_device).
Proof.
  apply (proj2 (basis_state_ignores_unpaired [VInt 0; VInt 2; VInt 0] [0; 1]
                  example_device)).
  repeat constructor.
Defined.

Lemma float_operation_translates_iff_advertised_witness :
  (_apply_operation (op "MS" [VFloat 0.5] [0; 1]) VNone None example_device).1 = Ret tt
  <-> "MS" ∈ operations.
Proof.
  apply (float_operation_translates_iff_advertised "MS" 0.5 [0; 1] example_device);
    discriminate.
Defined.

Lemma reset_with_stored_key_witness :
  exists d',
    @reset example_client ∅ example_device = (Ret tt, d')
    /\ _api_key d' = _api_key example_device
    /\ forall environ',
         @reset example_client environ' example_device = (Ret tt, d')
         /\ @reset example_client environ' d' = (Ret tt, d').
Proof.
  apply (@reset_with_stored_key example_client ∅ example_device). reflexivity.
Defined.

Lemma constructed_device_fields_witness :
  let d := (@__init__ example_client 3 None (Some "secret") {[ "AQT_TOKEN" := "other" ]}).2 in
  num_wires d = 3
  /\ shots d = 200 /\ _initial_shots d = 200
  /\ circuit d = [] /\ circuit_json d = "" /\ samples d = VNone
  /\ str_truthy (_api_key d) = true
  /\ (str_truthy (Some "secret") = true -> _api_key d = Some "secret")
  /\ data d !! "no_qubits" = Some (VInt 3)
  /\ hostname d = @join_path example_client BASE_HOSTNAME TARGET_PATH.
Proof.
  intros d.
  apply (@constructed_device_fields example_client 3 None (Some "secret")
           {[ "AQT_TOKEN" := "other" ]} d).
  reflexivity.
Defined.



